(** * The in-process CQRS mediator of the generated projects

    A shallow embedding of
      templates/layered/app/application/common/models/result_model.py
      templates/layered/app/application/common/cqrs.py
    and the properties of dispatch, pipeline order, error containment and
    registration that the project documents for them. *)

From stdpp Require Import gmap strings list.

Set Default Proof Using "Type".

(** ** Python values the mediator handles *)

(** A class object.  The registries are keyed by the class itself, and the
    "no handler" message prints its [__name__]; two classes of different
    modules may share a [__name__]. *)
Record PyType := mkType { ty_module : string; ty_name : string }.

#[global] Instance PyType_eq_dec : EqDecision PyType.
Proof. solve_decision. Defined.

#[global] Instance PyType_countable : Countable PyType.
Proof.
  refine (inj_countable' (fun t => (ty_module t, ty_name t))
                         (fun p => mkType p.1 p.2) _).
  by intros [].
Defined.

(** A raised exception object: its class, whether that class derives from
    [Exception], and [str(exc)].  What derives from [BaseException] only
    ([KeyboardInterrupt], [SystemExit], [GeneratorExit],
    [asyncio.CancelledError]) asks the program or the task to stop: it is not
    a failure of host code, and [except Exception] lets it pass.  In the
    properties below "an exception" is an instance of [Exception]. *)
Record PyExc := mkExc {
  exc_type : PyType;
  exc_is_Exception : bool;
  exc_str : string
}.

(** How a call ends: it returns a value or raises. *)
Inductive Outcome (A : Type) : Type :=
  | Returned (a : A)
  | Raised (exc : PyExc).
Arguments Returned {A} a.
Arguments Raised {A} exc.

(** Calls made on the logger [app.mediator], oldest first. *)
Inductive LogLevel := DEBUG | ERROR.

Record LogRecord := mkLog {
  log_level : LogLevel;
  log_text : string;
  log_exc_info : bool
}.

(** Everything outside the mediator object that code can read or change: the
    log and the state of the host application, of a type [H] that the
    mediator knows nothing about. *)
Record World (H : Type) := mkWorld {
  logs : list LogRecord;
  host : H
}.
Arguments mkWorld {H} logs host.
Arguments logs {H} w.
Arguments host {H} w.

(** [Any]: the values that flow through the pipeline.  A coroutine object is
    the pending body of an [async def] call: nothing of it has run yet, and
    awaiting it runs it on the world of that moment. *)
#[local] Unset Elimination Schemes.
Inductive PyVal (H : Type) : Type :=
  | VNone
  | VBool (b : bool)
  | VInt (z : Z)
  | VStr (s : string)
  | VInstance (cls : PyType) (attrs : list (string * PyVal H))
  | VResult (r : Result H)
  | VCoroutine (body : World H -> Outcome (PyVal H) * World H)
(** [result_model.Result]: a dataclass of three public fields,
    [success: bool], [value: Optional[T] = None], [error: Optional[str] = None]. *)
with Result (H : Type) : Type :=
  | mkResult (success : bool) (value : PyVal H) (error : option string).
#[local] Set Elimination Schemes.

Arguments VNone {H}.
Arguments VBool {H} b.
Arguments VInt {H} z.
Arguments VStr {H} s.
Arguments VInstance {H} cls attrs.
Arguments VResult {H} r.
Arguments VCoroutine {H} body.
Arguments mkResult {H} success value error.

Definition success {H} (r : Result H) : bool :=
  match r with mkResult s _ _ => s end.
Definition value {H} (r : Result H) : PyVal H :=
  match r with mkResult _ v _ => v end.
Definition error {H} (r : Result H) : option string :=
  match r with mkResult _ _ e => e end.

Module Result.
(** [Result.ok(value=None)] is [cls(True, value=value)]. *)
Definition ok {H} (value : PyVal H) : Result H := mkResult true value None.
(** [Result.fail(error)] is [cls(False, error=error)]. *)
Definition fail {H} (error : string) : Result H := mkResult false VNone (Some error).
End Result.

Definition builtins (name : string) : PyType := mkType "builtins" name.
Definition Result_type : PyType :=
  mkType "app.application.common.models.result_model" "Result".

(** [type(v)] *)
Definition type {H} (v : PyVal H) : PyType :=
  match v with
  | VNone => builtins "NoneType"
  | VBool _ => builtins "bool"
  | VInt _ => builtins "int"
  | VStr _ => builtins "str"
  | VInstance cls _ => cls
  | VResult _ => Result_type
  | VCoroutine _ => builtins "coroutine"
  end.

(** [inspect.iscoroutine(v)] *)
Definition iscoroutine {H} (v : PyVal H) : bool :=
  match v with VCoroutine _ => true | _ => false end.

(** [isinstance(v, Result)] *)
Definition isinstance_Result {H} (v : PyVal H) : bool :=
  match v with VResult _ => true | _ => false end.

(** ** Computations: state passing with exceptions *)

(** A computation over a state [S] ends in an outcome and a new state; what a
    raising call did to the state before it raised stays done. *)
Definition M (S A : Type) : Type := S -> Outcome A * S.

Definition ret {S A} (a : A) : M S A := fun s => (Returned a, s).

Definition raise {S A} (exc : PyExc) : M S A := fun s => (Raised exc, s).

Definition bind {S A B} (c : M S A) (k : A -> M S B) : M S B :=
  fun s =>
    match c s with
    | (Returned a, s') => k a s'
    | (Raised exc, s') => (Raised exc, s')
    end.

Notation "x <- c ;; k" := (bind c (fun x => k))
  (at level 100, c at next level, right associativity).
Notation "c ;; k" := (bind c (fun _ => k))
  (at level 100, right associativity).

(** [try: c  except Exception as exc: handler exc].  An exception whose class
    does not derive from [Exception] is not caught. *)
Definition try_except_Exception {S A} (c : M S A) (handler : PyExc -> M S A) : M S A :=
  fun s =>
    match c s with
    | (Returned a, s') => (Returned a, s')
    | (Raised exc, s') =>
        if exc_is_Exception exc then handler exc s' else (Raised exc, s')
    end.

Section Mediator.
Context {H : Type}.

(** Code of the host application runs on the world. *)
Definition Host (A : Type) : Type := M (World H) A.

(** [CommandHandler], [QueryHandler]: [Callable[[message], Any]].  Handlers
    are function objects, which are truthy: the test [not handler] in the
    dispatch methods holds exactly when [dict.get] found nothing. *)
Definition Handler : Type := PyVal H -> Host (PyVal H).

(** [Behavior.__call__(next_, message)] *)
Definition Behavior : Type := (PyVal H -> Host (PyVal H)) -> PyVal H -> Host (PyVal H).

(** [Mediator.__init__]: the three attributes of the object. *)
Record Mediator := mkMediator {
  _command_handlers : gmap PyType Handler;
  _query_handlers : gmap PyType Handler;
  _behaviors : list Behavior
}.

Definition Mediator_init : Mediator := mkMediator ∅ ∅ [].

(** A method runs on the mediator object and the world.  Handlers and
    behaviours are host code: they get the world, not the mediator (the
    registries are filled before any dispatch and left alone after). *)
Definition Method (A : Type) : Type := M (Mediator * World H) A.

Definition get_self : Method Mediator := fun s => (Returned s.1, s).

Definition set_self (self : Mediator) : Method unit := fun s => (Returned tt, (self, s.2)).

Definition call_host {A} (c : Host A) : Method A :=
  fun s => let (o, w) := c s.2 in (o, (s.1, w)).

(** The logger: [logger.debug(fmt, arg)] and [logger.exception(fmt, arg)]
    with the one [%s] of [fmt] filled in. *)
Definition logger_debug (text : string) : Host unit :=
  fun w => (Returned tt, mkWorld (logs w ++ [mkLog DEBUG text false]) (host w)).

Definition logger_exception (text : string) : Host unit :=
  fun w => (Returned tt, mkWorld (logs w ++ [mkLog ERROR text true]) (host w)).

(** *** Registration *)

Definition register_command (t : PyType) (handler : Handler) : Method unit :=
  self <- get_self ;;
  set_self (mkMediator (<[t := handler]> (_command_handlers self))
                       (_query_handlers self)
                       (_behaviors self)).

Definition register_query (t : PyType) (handler : Handler) : Method unit :=
  self <- get_self ;;
  set_self (mkMediator (_command_handlers self)
                       (<[t := handler]> (_query_handlers self))
                       (_behaviors self)).

Definition add_behavior (behavior : Behavior) : Method unit :=
  self <- get_self ;;
  set_self (mkMediator (_command_handlers self)
                       (_query_handlers self)
                       (_behaviors self ++ [behavior])).

(** *** Internal *)

Definition IndexError : PyExc :=
  mkExc (builtins "IndexError") true "list index out of range".
Definition RecursionError : PyExc :=
  mkExc (builtins "RecursionError") true "maximum recursion depth exceeded".

(** [call_chain], the function nested in [_invoke]; it closes over [self]
    and [handler].  [index] counts up to [len(self._behaviors)], so the
    recursion is on the number of stages that are left; [call_chain_eq]
    below is the equation of the source, without that count. *)
Fixpoint call_chain_rec (self : Mediator) (handler : Handler)
    (remaining index : nat) (msg : PyVal H) {struct remaining} : Host (PyVal H) :=
  if decide (index = length (_behaviors self)) then handler msg
  else
    match (_behaviors self !! index : option Behavior) with
    | None => raise IndexError
    | Some behavior =>
        match remaining with
        | S remaining' =>
            behavior (fun m => call_chain_rec self handler remaining' (index + 1) m) msg
        | 0 => raise RecursionError
        end
    end.

Definition call_chain (self : Mediator) (handler : Handler)
    (index : nat) (msg : PyVal H) : Host (PyVal H) :=
  call_chain_rec self handler (length (_behaviors self) - index) index msg.

Definition _invoke (message : PyVal H) (handler : Handler) : Method (PyVal H) :=
  self <- get_self ;;
  try_except_Exception
    (result <- call_host (call_chain self handler 0 message) ;;
     ret result)
    (fun exc =>
       call_host (logger_exception ("Mediator handler error: " +:+ exc_str exc)) ;;
       ret (VResult (Result.fail (exc_str exc)))).

(** *** Dispatch *)

(** [res if isinstance(res, Result) else Result.ok(res)] *)
Definition res_or_ok (res : PyVal H) : Result H :=
  match res with
  | VResult r => r
  | _ => Result.ok res
  end.

(** [await res] for the values of this model: a coroutine object runs its
    body; nothing else here is awaitable. *)
Definition await (res : PyVal H) : Host (PyVal H) :=
  match res with
  | VCoroutine body => body
  | _ => raise (mkExc (builtins "TypeError") true
                      ("object " +:+ ty_name (type res) +:+
                       " can't be used in 'await' expression"))
  end.

Definition send (command : PyVal H) : Method (Result H) :=
  self <- get_self ;;
  match _command_handlers self !! type command with
  | None =>
      ret (Result.fail ("No handler registered for command " +:+ ty_name (type command)))
  | Some handler =>
      res <- _invoke command handler ;;
      ret (res_or_ok res)
  end.

(** The body of the coroutine that [send_async(command)] returns, run to
    its end without another task in between. *)
Definition send_async (command : PyVal H) : Method (Result H) :=
  self <- get_self ;;
  match _command_handlers self !! type command with
  | None =>
      ret (Result.fail ("No handler registered for command " +:+ ty_name (type command)))
  | Some handler =>
      res <- _invoke command handler ;;
      res <- (if iscoroutine res then call_host (await res) else ret res) ;;
      ret (res_or_ok res)
  end.

Definition ask (query : PyVal H) : Method (Result H) :=
  self <- get_self ;;
  match _query_handlers self !! type query with
  | None =>
      ret (Result.fail ("No handler registered for query " +:+ ty_name (type query)))
  | Some handler =>
      res <- _invoke query handler ;;
      ret (res_or_ok res)
  end.

Definition ask_async (query : PyVal H) : Method (Result H) :=
  self <- get_self ;;
  match _query_handlers self !! type query with
  | None =>
      ret (Result.fail ("No handler registered for query " +:+ ty_name (type query)))
  | Some handler =>
      res <- _invoke query handler ;;
      res <- (if iscoroutine res then call_host (await res) else ret res) ;;
      ret (res_or_ok res)
  end.

(** *** The module-level instance and its default behaviour *)

Definition _logging_behavior : Behavior :=
  fun next_ message =>
    logger_debug ("Handling " +:+ ty_name (type message)) ;;
    result <- next_ message ;;
    logger_debug ("Handled " +:+ ty_name (type message)) ;;
    ret result.

(** [mediator = Mediator()] followed by [mediator.add_behavior(_logging_behavior)] *)
Definition mediator : Mediator :=
  mkMediator ∅ ∅ ([] ++ [_logging_behavior]).

End Mediator.

Arguments Mediator H : clear implicits.
Arguments Handler H : clear implicits.
Arguments Behavior H : clear implicits.
Arguments Host H A : clear implicits.
Arguments Method H A : clear implicits.

(** ** The pipeline in the words of the specification *)

(** The onion [behavior[0](() => behavior[1](() => ... handler(msg)))]:
    a right fold of the behaviours over the handler. *)
Fixpoint onion {H} (behaviors : list (Behavior H)) (handler : Handler H) : Handler H :=
  match behaviors with
  | [] => fun msg => handler msg
  | behavior :: inner => fun msg => behavior (fun m => onion inner handler m) msg
  end.

(** A behaviour with a step before and a step after its continuation, as
    [_logging_behavior] is written. *)
Definition around {H} (pre post : PyVal H -> Host H unit) : Behavior H :=
  fun next_ message =>
    pre message ;;
    result <- next_ message ;;
    post message ;;
    ret result.

(** A behaviour that does not call its continuation: what it does is the same
    whatever continuation it is given. *)
Definition ignores_continuation {H} (behavior : Behavior H) : Prop :=
  forall next_ next_', behavior next_ = behavior next_'.

(** A behaviour that hands the outcome [o] of its continuation on: around a
    continuation that always ends in [o] (returns that value, or raises that
    exception), it ends in [o] too. *)
Definition hands_on {H} (o : Outcome (PyVal H)) (behavior : Behavior H) : Prop :=
  forall next_ : PyVal H -> Host H (PyVal H),
    (forall m w, (next_ m w).1 = o) ->
    forall m w, (behavior next_ m w).1 = o.

(** "[Fail] never carries a value; [Ok] never carries an error string." *)
Definition populated_one_way {H} (r : Result H) : Prop :=
  (success r = false -> value r = VNone) /\ (success r = true -> error r = None).

(** The [Result] came out of host code as it is: the pipeline returned it. *)
Definition pipeline_returns {H} (self : Mediator H) (handler : Handler H)
    (message : PyVal H) (w : World H) (r : Result H) : Prop :=
  exists w', call_chain self handler 0 message w = (Returned (VResult r), w').

(** The [Result] came out of host code as it is: the pipeline returned a
    coroutine, and that coroutine, awaited, returned it. *)
Definition awaited_returns {H} (self : Mediator H) (handler : Handler H)
    (message : PyVal H) (w : World H) (r : Result H) : Prop :=
  exists body w1 w2,
    call_chain self handler 0 message w = (Returned (VCoroutine body), w1) /\
    body w1 = (Returned (VResult r), w2).

(** The world after [logger.exception("Mediator handler error: %s", exc)]. *)
Definition error_logged {H} (exc : PyExc) (w : World H) : World H :=
  mkWorld (logs w ++ [mkLog ERROR ("Mediator handler error: " +:+ exc_str exc) true])
          (host w).

(** ** Handlers, behaviours and messages of the scenarios *)

Definition ValueError (text : string) : PyExc := mkExc (builtins "ValueError") true text.
Definition AttributeError (text : string) : PyExc := mkExc (builtins "AttributeError") true text.

(** [getattr(v, name)] on an instance *)
Definition getattr {H} (v : PyVal H) (name : string) : option (PyVal H) :=
  match v with
  | VInstance _ attrs =>
      (fun found => found.2.2) <$> list_find (fun attr => attr.1 = name) attrs
  | _ => None
  end.

(** [def h(cmd): return len(cmd.name)] *)
Definition name_length {H} : Handler H :=
  fun cmd =>
    match getattr cmd "name" with
    | Some (VStr s) => ret (VInt (Z.of_nat (String.length s)))
    | _ => raise (AttributeError "name")
    end.

(** [def h(msg): return Result.fail("NOT_FOUND")] *)
Definition not_found {H} : Handler H :=
  fun _ => ret (VResult (Result.fail "NOT_FOUND")).

(** [def h(msg): raise exc] *)
Definition always_raises {H} (exc : PyExc) : Handler H :=
  fun _ => raise exc.

(** [async def h(msg): raise exc]: the call returns a coroutine object, and
    the exception is raised when that is awaited. *)
Definition async_raises {H} (exc : PyExc) : Handler H :=
  fun _ => ret (VCoroutine (raise exc)).

(** [def h(msg): return Result(False, value=1, error="NOT_FOUND")] *)
Definition half_filled {H} : Handler H :=
  fun _ => ret (VResult (mkResult false (VInt 1) (Some "NOT_FOUND"))).

(** [def b(next_, message): return v] *)
Definition short_circuit {H} (v : PyVal H) : Behavior H :=
  fun _ _ => ret v.

(** [def b(next_, message): next_(message); return v] *)
Definition replacing {H} (v : PyVal H) : Behavior H :=
  fun next_ message => next_ message ;; ret v.

(** [def b(next_, message):
       try: return next_(message)
       except Exception: return v] *)
Definition catching {H} (v : PyVal H) : Behavior H :=
  fun next_ message => try_except_Exception (next_ message) (fun _ => ret v).

Definition CreateItem : PyType := mkType "app.items" "CreateItem".
Definition DeleteItem : PyType := mkType "app.items" "DeleteItem".
Definition GetItem : PyType := mkType "app.items" "GetItem".

Definition create_item : PyVal unit := VInstance CreateItem [("name", VStr "hello")].
Definition delete_item : PyVal unit := VInstance DeleteItem [("id", VInt 1)].
Definition get_item : PyVal unit := VInstance GetItem [("id", VInt 1)].

Definition quiet : World unit := mkWorld [] tt.

(** The module-level [mediator] after [register_command(CreateItem, handler)]
    and [register_query(GetItem, handler)]. *)
Definition serving (handler : Handler unit) : Mediator unit :=
  mkMediator (<[CreateItem := handler]> ∅) (<[GetItem := handler]> ∅)
             [_logging_behavior].

(** The same registrations on a mediator with the given pipeline. *)
Definition serving_through (behaviors : list (Behavior unit)) (handler : Handler unit)
    : Mediator unit :=
  mkMediator (<[CreateItem := handler]> ∅) (<[GetItem := handler]> ∅) behaviors.

(** [def b(next_, message): return next_(f(message))] *)
Definition forwarding {H} (f : PyVal H -> PyVal H) : Behavior H :=
  fun next_ message => next_ (f message).

(** ** presentation/api/utils/result_adapter.py *)

(** [fastapi.HTTPException(status_code=..., detail=...)] *)
Record HTTPException := mkHTTPException {
  status_code : Z;
  detail : string
}.

Definition ERROR_STATUS_MAP : gmap string Z :=
  list_to_map [("NOT_FOUND", 404); ("VALIDATION_ERROR", 422);
               ("UNAUTHORIZED", 401); ("FORBIDDEN", 403)]%Z.

(** [s or d] for an [Optional[str]]: [None] and the empty string are falsy. *)
Definition str_or (s : option string) (d : string) : string :=
  match s with
  | Some (String c s') => String c s'
  | _ => d
  end.

(** [unwrap_or_raise(result, default_status=400)]: the value, or the
    [HTTPException] that is raised. *)
Definition unwrap_or_raise {H} (result : Result H) (default_status : Z)
    : PyVal H + HTTPException :=
  if success result then inl (value result)
  else
    let status := default default_status (ERROR_STATUS_MAP !! str_or (error result) "") in
    inr (mkHTTPException status (str_or (error result) "error")).

(** ** domain/entities/user.py and infrastructure/repositories/user_repository.py *)

Module User.
Record User := mk {
  id : Z;
  username : string;
  password_hash : string;
  roles : list string
}.
End User.

Module InMemoryUserRepository.
Record InMemoryUserRepository := mk {
  _by_id : gmap Z User.User;
  _by_username : gmap string Z;
  _next_id : Z
}.

Definition __init__ : InMemoryUserRepository := mk ∅ ∅ 1.

Definition create (username password_hash : string) (roles : list string)
    : M InMemoryUserRepository User.User :=
  fun self =>
    let user := User.mk (_next_id self) username password_hash roles in
    (Returned user,
     mk (<[_next_id self := user]> (_by_id self))
        (<[username := _next_id self]> (_by_username self))
        (_next_id self + 1)).

Definition get_by_username (username : string)
    : M InMemoryUserRepository (option User.User) :=
  fun self =>
    match _by_username self !! username with
    | None => (Returned None, self)
    | Some _id => (Returned (_by_id self !! _id), self)
    end.

Definition get_by_id (user_id : Z) : M InMemoryUserRepository (option User.User) :=
  fun self => (Returned (_by_id self !! user_id), self).

(** What the repository keeps from [__init__] on through every [create]:
    the next id is above every stored id, a user is stored under its own
    id, and a name in the index leads to a stored user of that name. *)
Definition consistent (self : InMemoryUserRepository) : Prop :=
  (1 <= _next_id self)%Z /\
  (forall i u, _by_id self !! i = Some u ->
               User.id u = i /\ (1 <= i < _next_id self)%Z) /\
  (forall n i, _by_username self !! n = Some i ->
               exists u, _by_id self !! i = Some u /\ User.username u = n).

(** Every stored user is the one its name leads to: no two stored users
    share a name. *)
Definition names_unique (self : InMemoryUserRepository) : Prop :=
  forall i u, _by_id self !! i = Some u ->
              _by_username self !! User.username u = Some i.
End InMemoryUserRepository.

(** ** application/authentication/services/auth_service.py *)

Module AuthService.
Import InMemoryUserRepository.

Section PWD_CONTEXT.
(** [passlib]'s [PWD_CONTEXT.hash(password)], with the salt it draws for the
    call, and [PWD_CONTEXT.verify(password, hash)].  [hash] is taken to
    return; [verify] returns or raises. *)
Variable hash : string -> string -> string.
Variable verify : string -> string -> Outcome bool.

(** [register(username, password, roles=None)]; [salt] is what [hash] draws. *)
Definition register (salt : string) (username password : string)
    (roles : option (list string)) : M InMemoryUserRepository User.User :=
  existing <- get_by_username username ;;
  match existing with
  | Some _ => raise (ValueError "User already exists")
  | None =>
      let hashed := hash salt password in
      create username hashed
             (match roles with
              | Some (r :: rs) => r :: rs
              | _ => ["user"]
              end)
  end.

Definition authenticate (username password : string) : M InMemoryUserRepository bool :=
  user <- get_by_username username ;;
  match user with
  | None => ret false
  | Some user => fun self => (verify password (User.password_hash user), self)
  end.
End PWD_CONTEXT.
End AuthService.

(** ** core/security.py *)

Section require_roles.
(** [str.lower] *)
Variable lower : string -> string.

(** [require_roles] with its [roles] returns [dependency]; applied to the
    current user that returns the user or raises the 403. *)
Definition require_roles (roles : list string) : User.User -> User.User + HTTPException :=
  let role_set : gset string := list_to_set (lower <$> roles) in
  fun user =>
    if decide (role_set ∩ list_to_set (lower <$> User.roles user) = ∅)
    then inr (mkHTTPException 403 "Insufficient role")
    else inl user.
End require_roles.

(** ** presentation/api/routers/auth.py *)

Module auth.
Import InMemoryUserRepository.

Section routes.
Variable hash : string -> string -> string.
Variable verify : string -> string -> Outcome bool.
(** [svc.create_access_token(user)] *)
Variable create_access_token : User.User -> string.

(** What an endpoint gives back: the response body, or the [HTTPException]
    it raises; another exception passes through as it is.  Classes have no
    subclasses here, so [except ValueError] tests the class itself. *)
Definition Response (A : Type) : Type := M InMemoryUserRepository (A + HTTPException).

(** [POST /auth/register]: [{"id": user.id, "username": user.username}] *)
Definition register (salt : string) (req_username req_password : string)
    : Response (Z * string) :=
  fun repo =>
    match AuthService.register hash salt req_username req_password None repo with
    | (Returned user, repo') => (Returned (inl (User.id user, User.username user)), repo')
    | (Raised e, repo') =>
        if decide (exc_type e = builtins "ValueError")
        then (Returned (inr (mkHTTPException 400 (exc_str e))), repo')
        else (Raised e, repo')
    end.

(** [POST /auth/login]: the access token of [TokenResponse] *)
Definition login (req_username req_password : string) : Response string :=
  ok <- AuthService.authenticate verify req_username req_password ;;
  if negb ok then ret (inr (mkHTTPException 401 "invalid credentials"))
  else
    user <- get_by_username req_username ;;
    match user with
    | Some user => ret (inl (create_access_token user))
    | None => raise (AttributeError "'NoneType' object has no attribute 'id'")
    end.
End routes.
End auth.

(** ** plugins/__init__.py *)

Section load_plugins.
(** The [typer] app, with whatever else the code of a plugin can change. *)
Context {A : Type}.

(** A plugin module as [load_plugins] meets it:
    [importlib.import_module(modinfo.name)] runs the module and raises or
    gives the module object, of which only [getattr(module, "register", None)]
    is used, and that only when it is callable. *)
Definition Plugin : Type := M A (option (M A unit)).

(** One turn of the loop. *)
Definition load_plugin (import_module : Plugin) : M A unit :=
  imported <- try_except_Exception
                (module <- import_module ;; ret (Some module))
                (fun _ => ret None) ;;
  match imported with
  | None => ret tt
  | Some None => ret tt
  | Some (Some register) => try_except_Exception register (fun _ => ret tt)
  end.

(** [load_plugins(app)], over the modules that [pkgutil.iter_modules] lists *)
Fixpoint load_plugins (modules : list Plugin) : M A unit :=
  match modules with
  | [] => ret tt
  | import_module :: modules => load_plugin import_module ;; load_plugins modules
  end.
End load_plugins.
Arguments Plugin A : clear implicits.

(** ** cli.py: the text of the options *)

(** A [str] is a [string]: its characters are the code points below 256. *)

Import Stdlib.Strings.Ascii.

(** [c.isspace()] for the code points below 256: tab to carriage return,
    the four separators 28 to 31, the space, NEL and the no-break space. *)
Definition isspace (c : ascii) : bool :=
  let n := N_of_ascii c in
  ((9 <=? n) && (n <=? 13) || (28 <=? n) && (n <=? 32) || (n =? 133) || (n =? 160))%N.

(** [c in s] *)
Fixpoint contains (c : ascii) (s : string) : bool :=
  match s with
  | EmptyString => false
  | String c' s' => bool_decide (c' = c) || contains c s'
  end.

(** [s.split(sep)] for a separator of one character *)
Fixpoint split (sep : ascii) (s : string) : list string :=
  match s with
  | EmptyString => [EmptyString]
  | String c s' =>
      if decide (c = sep) then EmptyString :: split sep s'
      else
        match split sep s' with
        | part :: parts => String c part :: parts
        | [] => [String c EmptyString]
        end
  end.

(** [s.split(sep, 1)] when [sep in s]: what is before the first [sep] and
    what is after it. *)
Fixpoint split_once (sep : ascii) (s : string) : string * string :=
  match s with
  | EmptyString => (EmptyString, EmptyString)
  | String c s' =>
      if decide (c = sep) then (EmptyString, s')
      else (String c (split_once sep s').1, (split_once sep s').2)
  end.

(** [s.lstrip()], [s.rstrip()], [s.strip()] *)
Fixpoint lstrip (s : string) : string :=
  match s with
  | EmptyString => EmptyString
  | String c s' => if isspace c then lstrip s' else s
  end.

Fixpoint rstrip (s : string) : string :=
  match s with
  | EmptyString => EmptyString
  | String c s' =>
      match rstrip s' with
      | EmptyString => if isspace c then EmptyString else String c EmptyString
      | kept => String c kept
      end
  end.

Definition strip (s : string) : string := lstrip (rstrip s).

(** [sep.join(parts)] *)
Fixpoint join (sep : string) (parts : list string) : string :=
  match parts with
  | [] => EmptyString
  | [part] => part
  | part :: parts => part +:+ sep +:+ join sep parts
  end.

(** The loop of [_parse_fields] over [spec.split(',')]. *)
Fixpoint _parse_fields_out (raws : list string) : list (string * string) :=
  match raws with
  | [] => []
  | raw :: raws =>
      let raw := strip raw in
      if decide (raw = EmptyString) then _parse_fields_out raws
      else
        let (n, t) := if contains ":"%char raw then split_once ":"%char raw else (raw, "str") in
        let n := strip n in
        let t := match strip t with EmptyString => "str" | t => t end in
        (n, t) :: _parse_fields_out raws
  end.

(** [_parse_fields(spec)], nested in [generate_crud] *)
Definition _parse_fields (spec : string) : list (string * string) :=
  match _parse_fields_out (split ","%char spec) with
  | [] => [("name", "str")]
  | out => out
  end.

(** [new]: the modules of a modular project, from the text of [--modules] or
    the answer to the prompt. *)
Definition selected_modules (modules : string) : list string :=
  let selected := filter (fun m => m <> EmptyString) (strip <$> split ","%char modules) in
  if decide ("auth" ∈ selected) then selected else "auth" :: selected.

(** ** domain/value_objects/email.py *)

(** The patterns that [EMAIL_RE] is made of: one character, one or more
    characters of a class, and one pattern after another. *)
Inductive pattern :=
  | Lit (c : ascii)
  | OneOrMore (class : ascii -> bool)
  | Seq (p q : pattern).

(** Whether [class+] followed by what [rest] accepts matches at the start of
    [s]: every number of characters of the class is tried. *)
Fixpoint one_or_more (class : ascii -> bool) (s : string) (rest : string -> bool) : bool :=
  match s with
  | EmptyString => false
  | String c s' => class c && (rest s' || one_or_more class s' rest)
  end.

(** Whether the pattern followed by what [rest] accepts matches at the start
    of [s]. *)
Fixpoint matches (p : pattern) (s : string) (rest : string -> bool) : bool :=
  match p with
  | Lit c =>
      match s with
      | EmptyString => false
      | String c' s' => bool_decide (c' = c) && rest s'
      end
  | OneOrMore class => one_or_more class s rest
  | Seq p q => matches p s (fun s' => matches q s' rest)
  end.

Definition newline : ascii := ascii_of_nat 10.

(** [$]: at the end of the text, or before a newline that ends it. *)
Definition at_end (s : string) : bool :=
  match s with
  | EmptyString => true
  | String c EmptyString => bool_decide (c = newline)
  | _ => false
  end.

(** [[^@\s]] *)
Definition not_at_nor_space (c : ascii) : bool :=
  negb (bool_decide (c = "@"%char) || isspace c).

(** [re.compile(r"^[^@\s]+@[^@\s]+\.[^@\s]+$")] *)
Definition EMAIL_RE : pattern :=
  Seq (OneOrMore not_at_nor_space)
      (Seq (Lit "@")
           (Seq (OneOrMore not_at_nor_space)
                (Seq (Lit ".") (OneOrMore not_at_nor_space)))).

Module Email.
(** [Email(value)]: the text itself, or [ValueError]. *)
Definition __new__ (value : string) : Outcome string :=
  if negb (matches EMAIL_RE value at_end)
  then Raised (ValueError "Invalid email format")
  else Returned value.

(** One of the three runs of [[^@\s]+]. *)
Definition run (s : string) : Prop :=
  s <> EmptyString /\ forall c, contains c s = true -> not_at_nor_space c = true.
End Email.

(** ** Stand-ins for the libraries, for the scenarios *)

(** A [str.lower] for the letters A to Z. *)
Fixpoint lower_A_Z (s : string) : string :=
  match s with
  | EmptyString => EmptyString
  | String c s' =>
      let n := nat_of_ascii c in
      String (if (65 <=? n)%nat && (n <=? 90)%nat then ascii_of_nat (n + 32) else c)
             (lower_A_Z s')
  end.

(** A hash that writes the salt after the password, and the [verify] that
    reads the password back. *)
Definition salted_hash (salt password : string) : string :=
  password +:+ "$" +:+ salt.

Definition salted_verify (password hashed : string) : Outcome bool :=
  Returned (String.prefix (password +:+ "$") hashed).


(** [async def h(msg): return v] *)
Definition async_returns {H} (v : PyVal H) : Handler H :=
  fun _ => ret (VCoroutine (ret v)).

(** [def pre(message): pass] and [def post(message): raise exc], the steps of
    a behaviour that fails after its continuation. *)
Definition no_step {H} : PyVal H -> Host H unit := fun _ => ret tt.
Definition failing_step {H} (exc : PyExc) : PyVal H -> Host H unit := fun _ => raise exc.

(** [def f(message): return DeleteItem(name="abc")] *)
Definition to_delete_item : PyVal unit -> PyVal unit :=
  fun _ => VInstance DeleteItem [("name", VStr "abc")].

(** The repository after [create("ann", "pw$s1", ["user"])] on a new one. *)
Definition with_ann : InMemoryUserRepository.InMemoryUserRepository :=
  (InMemoryUserRepository.create "ann" "pw$s1" ["user"] InMemoryUserRepository.__init__).2.

Definition ann : User.User := User.mk 1 "ann" "pw$s1" ["user"].

(** A stand-in for [svc.create_access_token]: the token names the user. *)
Definition token_for (user : User.User) : string := "token-" +:+ User.username user.

(** Two plugins over an app that is the list of its commands: a module that
    raises when it is imported, and one whose [register] adds a command. *)
Definition broken_plugin : Plugin (list string) := raise (ValueError "broken").

Definition hello_plugin : Plugin (list string) :=
  ret (Some (fun app => (Returned tt, app ++ ["hello"]))).
(** ** The recursion of [call_chain] *)

Section Facts.
Context {H : Type}.
Implicit Types (self : Mediator H) (handler : Handler H) (msg : PyVal H) (w : World H).

Lemma behavior_lookup_lt self index (behavior : Behavior H) :
  _behaviors self !! index = Some behavior -> index < length (_behaviors self).
Proof. apply lookup_lt_Some. Qed.

Lemma behavior_lookup_ge self index :
  _behaviors self !! index = None -> length (_behaviors self) <= index.
Proof. apply lookup_ge_None. Qed.

Lemma call_chain_rec_last self handler remaining msg :
  call_chain_rec self handler remaining (length (_behaviors self)) msg = handler msg.
Proof. destruct remaining; simpl; by rewrite decide_True. Qed.

Lemma call_chain_eq self handler index msg :
  call_chain self handler index msg =
    if decide (index = length (_behaviors self)) then handler msg
    else
      match (_behaviors self !! index : option (Behavior H)) with
      | None => raise IndexError
      | Some behavior => behavior (fun m => call_chain self handler (index + 1) m) msg
      end.
Proof.
  unfold call_chain.
  destruct (decide (index = length (_behaviors self))) as [->|Hne].
  - apply call_chain_rec_last.
  - destruct (_behaviors self !! index) as [behavior|] eqn:Hb.
    + apply behavior_lookup_lt in Hb as Hlt.
      replace (length (_behaviors self) - index)
        with (S (length (_behaviors self) - (index + 1))) by lia.
      simpl. rewrite decide_False by done. by rewrite Hb.
    + destruct (length (_behaviors self) - index); simpl;
        rewrite decide_False by done; by rewrite Hb.
Qed.

Lemma call_chain_rec_onion self handler remaining index :
  remaining + index = length (_behaviors self) ->
  call_chain_rec self handler remaining index = onion (drop index (_behaviors self)) handler.
Proof.
  revert index. induction remaining as [|remaining IH]; intros index Hlen.
  - simpl in Hlen. subst index. rewrite drop_all.
    unfold call_chain_rec, onion.
    destruct (decide (length (_behaviors self) = length (_behaviors self))); done.
  - destruct (_behaviors self !! index) as [behavior|] eqn:Hb.
    2:{ apply behavior_lookup_ge in Hb. lia. }
    rewrite (drop_S _ _ _ Hb).
    change (call_chain_rec self handler (S remaining) index) with
      (fun msg =>
         if decide (index = length (_behaviors self)) then handler msg
         else match (_behaviors self !! index : option (Behavior H)) with
              | None => raise IndexError
              | Some behavior =>
                  behavior (fun m => call_chain_rec self handler remaining (index + 1) m) msg
              end).
    destruct (decide (index = length (_behaviors self))); [lia|].
    rewrite Hb. rewrite IH by lia. by rewrite Nat.add_1_r.
Qed.

Lemma call_chain_onion self handler :
  call_chain self handler 0 = onion (_behaviors self) handler.
Proof.
  change (call_chain self handler 0)
    with (fun msg => call_chain_rec self handler (length (_behaviors self) - 0) 0 msg).
  rewrite Nat.sub_0_r.
  by rewrite call_chain_rec_onion by lia.
Qed.

(** *** What the dispatch methods compute, path by path *)

Lemma _invoke_eq message handler self w :
  _invoke message handler (self, w) =
    match call_chain self handler 0 message w with
    | (Returned result, w') => (Returned result, (self, w'))
    | (Raised exc, w') =>
        if exc_is_Exception exc
        then (Returned (VResult (Result.fail (exc_str exc))), (self, error_logged exc w'))
        else (Raised exc, (self, w'))
    end.
Proof.
  unfold _invoke, bind, get_self, try_except_Exception, call_host, ret. simpl.
  destruct (call_chain self handler 0 message w) as [[result|exc] w']; simpl; [done|].
  by destruct (exc_is_Exception exc).
Qed.

Lemma send_eq command self w :
  send command (self, w) =
    match _command_handlers self !! type command with
    | None =>
        (Returned (Result.fail ("No handler registered for command " +:+
                                ty_name (type command))), (self, w))
    | Some handler =>
        match _invoke command handler (self, w) with
        | (Returned res, s) => (Returned (res_or_ok res), s)
        | (Raised exc, s) => (Raised exc, s)
        end
    end.
Proof.
  unfold send. unfold bind at 1. unfold get_self. simpl.
  destruct (_command_handlers self !! type command) as [handler|]; [|done].
  unfold bind, ret. by destruct (_invoke command handler (self, w)) as [[res|exc] s].
Qed.

Lemma ask_eq query self w :
  ask query (self, w) =
    match _query_handlers self !! type query with
    | None =>
        (Returned (Result.fail ("No handler registered for query " +:+
                                ty_name (type query))), (self, w))
    | Some handler =>
        match _invoke query handler (self, w) with
        | (Returned res, s) => (Returned (res_or_ok res), s)
        | (Raised exc, s) => (Raised exc, s)
        end
    end.
Proof.
  unfold ask. unfold bind at 1. unfold get_self. simpl.
  destruct (_query_handlers self !! type query) as [handler|]; [|done].
  unfold bind, ret. by destruct (_invoke query handler (self, w)) as [[res|exc] s].
Qed.

Lemma send_async_eq command self w :
  send_async command (self, w) =
    match _command_handlers self !! type command with
    | None =>
        (Returned (Result.fail ("No handler registered for command " +:+
                                ty_name (type command))), (self, w))
    | Some handler =>
        match _invoke command handler (self, w) with
        | (Returned res, s) =>
            match (if iscoroutine res then call_host (await res) else ret res) s with
            | (Returned res', s') => (Returned (res_or_ok res'), s')
            | (Raised exc, s') => (Raised exc, s')
            end
        | (Raised exc, s) => (Raised exc, s)
        end
    end.
Proof.
  unfold send_async. unfold bind at 1. unfold get_self. simpl.
  destruct (_command_handlers self !! type command) as [handler|]; [|done].
  unfold bind, ret.
  destruct (_invoke command handler (self, w)) as [[res|exc] s]; [|done].
  by destruct (if iscoroutine res then _ else _) as [[res'|exc] s'].
Qed.

Lemma ask_async_eq query self w :
  ask_async query (self, w) =
    match _query_handlers self !! type query with
    | None =>
        (Returned (Result.fail ("No handler registered for query " +:+
                                ty_name (type query))), (self, w))
    | Some handler =>
        match _invoke query handler (self, w) with
        | (Returned res, s) =>
            match (if iscoroutine res then call_host (await res) else ret res) s with
            | (Returned res', s') => (Returned (res_or_ok res'), s')
            | (Raised exc, s') => (Raised exc, s')
            end
        | (Raised exc, s) => (Raised exc, s)
        end
    end.
Proof.
  unfold ask_async. unfold bind at 1. unfold get_self. simpl.
  destruct (_query_handlers self !! type query) as [handler|]; [|done].
  unfold bind, ret.
  destruct (_invoke query handler (self, w)) as [[res|exc] s]; [|done].
  by destruct (if iscoroutine res then _ else _) as [[res'|exc] s'].
Qed.

End Facts.

Section Pipeline.
Context {H : Type}.
Implicit Types (self : Mediator H) (handler : Handler H) (msg : PyVal H) (w : World H).

(** Dispatch in terms of what the pipeline does: the four paths of [send]. *)
Lemma send_paths command self w :
  send command (self, w) =
    match _command_handlers self !! type command with
    | None =>
        (Returned (Result.fail ("No handler registered for command " +:+
                                ty_name (type command))), (self, w))
    | Some handler =>
        match call_chain self handler 0 command w with
        | (Returned res, w') => (Returned (res_or_ok res), (self, w'))
        | (Raised exc, w') =>
            if exc_is_Exception exc
            then (Returned (Result.fail (exc_str exc)), (self, error_logged exc w'))
            else (Raised exc, (self, w'))
        end
    end.
Proof.
  rewrite send_eq. destruct (_command_handlers self !! type command) as [handler|]; [|done].
  rewrite _invoke_eq.
  destruct (call_chain self handler 0 command w) as [[res|exc] w']; [done|].
  by destruct (exc_is_Exception exc).
Qed.

Lemma ask_paths query self w :
  ask query (self, w) =
    match _query_handlers self !! type query with
    | None =>
        (Returned (Result.fail ("No handler registered for query " +:+
                                ty_name (type query))), (self, w))
    | Some handler =>
        match call_chain self handler 0 query w with
        | (Returned res, w') => (Returned (res_or_ok res), (self, w'))
        | (Raised exc, w') =>
            if exc_is_Exception exc
            then (Returned (Result.fail (exc_str exc)), (self, error_logged exc w'))
            else (Raised exc, (self, w'))
        end
    end.
Proof.
  rewrite ask_eq. destruct (_query_handlers self !! type query) as [handler|]; [|done].
  rewrite _invoke_eq.
  destruct (call_chain self handler 0 query w) as [[res|exc] w']; [done|].
  by destruct (exc_is_Exception exc).
Qed.

Lemma around_twice pre1 post1 pre2 post2 handler msg w :
  onion [around pre1 post1; around pre2 post2] handler msg w =
    (pre1 msg ;; pre2 msg ;; result <- handler msg ;; post2 msg ;; post1 msg ;; ret result) w.
Proof.
  simpl. unfold around, bind, ret.
  destruct (pre1 msg w) as [[[]|e1] w1]; [|done].
  destruct (pre2 msg w1) as [[[]|e2] w2]; [|done].
  destruct (handler msg w2) as [[result|e3] w3]; [|done].
  destruct (post2 msg w3) as [[[]|e4] w4]; [|done].
  done.
Qed.

(** C2: dispatch computes the onion.  Stage [index] of [call_chain] runs
    behaviour [index] on a continuation that enters stage [index + 1]
    with the message the behaviour forwards, and the stage after the last
    behaviour calls the handler; so [call_chain(0, message)], which is what
    [send] and [ask] run for a registered handler, is
    [b0 (fun m => b1 (... (fun m => handler m)))].  [add_behavior] appends, so
    the order is that of registration, and of two behaviours with a step
    before and after the continuation the steps run as
    before-1, before-2, handler, after-2, after-1. *)
Theorem C2_dispatch_computes_the_onion self :
  (forall handler index msg,
     call_chain self handler index msg =
       if decide (index = length (_behaviors self)) then handler msg
       else
         match (_behaviors self !! index : option (Behavior H)) with
         | None => raise IndexError
         | Some behavior => behavior (fun m => call_chain self handler (index + 1) m) msg
         end) /\
  (forall handler, call_chain self handler 0 = onion (_behaviors self) handler) /\
  (forall command w,
     send command (self, w) =
       match _command_handlers self !! type command with
       | None =>
           (Returned (Result.fail ("No handler registered for command " +:+
                                   ty_name (type command))), (self, w))
       | Some handler =>
           match onion (_behaviors self) handler command w with
           | (Returned res, w') => (Returned (res_or_ok res), (self, w'))
           | (Raised exc, w') =>
               if exc_is_Exception exc
               then (Returned (Result.fail (exc_str exc)), (self, error_logged exc w'))
               else (Raised exc, (self, w'))
           end
       end) /\
  (forall query w,
     ask query (self, w) =
       match _query_handlers self !! type query with
       | None =>
           (Returned (Result.fail ("No handler registered for query " +:+
                                   ty_name (type query))), (self, w))
       | Some handler =>
           match onion (_behaviors self) handler query w with
           | (Returned res, w') => (Returned (res_or_ok res), (self, w'))
           | (Raised exc, w') =>
               if exc_is_Exception exc
               then (Returned (Result.fail (exc_str exc)), (self, error_logged exc w'))
               else (Raised exc, (self, w'))
           end
       end) /\
  (forall b1 b2 w,
     _behaviors ((add_behavior b1 ;; add_behavior b2) (self, w)).2.1
     = _behaviors self ++ [b1; b2]) /\
  (forall pre1 post1 pre2 post2 handler commands queries msg w w0,
     let registered :=
       ((add_behavior (around pre1 post1) ;; add_behavior (around pre2 post2))
          (mkMediator commands queries [], w0)).2.1 in
     call_chain registered handler 0 msg w =
       (pre1 msg ;; pre2 msg ;;
        result <- handler msg ;;
        post2 msg ;; post1 msg ;;
        ret result) w).
Proof.
  split_and!.
  - intros. apply call_chain_eq.
  - intros. apply call_chain_onion.
  - intros. rewrite send_paths.
    destruct (_command_handlers self !! type command) as [handler|]; [|done].
    by rewrite call_chain_onion.
  - intros. rewrite ask_paths.
    destruct (_query_handlers self !! type query) as [handler|]; [|done].
    by rewrite call_chain_onion.
  - intros. simpl. by rewrite <- app_assoc.
  - intros. subst registered. rewrite call_chain_onion. simpl _behaviors.
    apply around_twice.
Qed.
End Pipeline.

Section Dispatch.
Context {H : Type}.
Implicit Types (self : Mediator H) (handler : Handler H) (message : PyVal H) (w : World H).

(** C3: when the pipeline returns, a [Result] it returned is the result of
    [send] (and of [ask]) as it is, and any other value [res] comes back as
    [Result.ok(res)]. *)
Theorem C3_Result_passes_other_values_are_wrapped self message handler res w w' :
  call_chain self handler 0 message w = (Returned res, w') ->
  (_command_handlers self !! type message = Some handler ->
     (forall r, res = VResult r -> send message (self, w) = (Returned r, (self, w'))) /\
     (isinstance_Result res = false ->
        send message (self, w) = (Returned (Result.ok res), (self, w')))) /\
  (_query_handlers self !! type message = Some handler ->
     (forall r, res = VResult r -> ask message (self, w) = (Returned r, (self, w'))) /\
     (isinstance_Result res = false ->
        ask message (self, w) = (Returned (Result.ok res), (self, w')))).
Proof.
  intros Hrun. split; intros Hreg.
  - rewrite send_paths, Hreg, Hrun. split.
    + by intros r ->.
    + by destruct res.
  - rewrite ask_paths, Hreg, Hrun. split.
    + by intros r ->.
    + by destruct res.
Qed.

(** C4: a message whose class has no handler in the registry gets the
    [Fail] that names the class; nothing raises, and the world is as it
    was: no behaviour ran. *)
Theorem C4_no_handler_is_a_Fail self message w :
  (_command_handlers self !! type message = None ->
     send message (self, w) =
       (Returned (Result.fail ("No handler registered for command " +:+
                               ty_name (type message))), (self, w))) /\
  (_query_handlers self !! type message = None ->
     ask message (self, w) =
       (Returned (Result.fail ("No handler registered for query " +:+
                               ty_name (type message))), (self, w))).
Proof.
  split; intros Hnone.
  - by rewrite send_paths, Hnone.
  - by rewrite ask_paths, Hnone.
Qed.
End Dispatch.

Lemma C3_witness :
  (call_chain (serving not_found) not_found 0 create_item quiet
     = (Returned (VResult (Result.fail "NOT_FOUND")),
        mkWorld [mkLog DEBUG "Handling CreateItem" false;
                 mkLog DEBUG "Handled CreateItem" false] tt) /\
   _command_handlers (serving not_found) !! type create_item = Some not_found /\
   send create_item (serving not_found, quiet)
     = (Returned (Result.fail "NOT_FOUND"),
        (serving not_found,
         mkWorld [mkLog DEBUG "Handling CreateItem" false;
                  mkLog DEBUG "Handled CreateItem" false] tt))) /\
  (call_chain (serving name_length) name_length 0 create_item quiet
     = (Returned (VInt 5),
        mkWorld [mkLog DEBUG "Handling CreateItem" false;
                 mkLog DEBUG "Handled CreateItem" false] tt) /\
   isinstance_Result (VInt (H:=unit) 5) = false /\
   send create_item (serving name_length, quiet)
     = (Returned (Result.ok (VInt 5)),
        (serving name_length,
         mkWorld [mkLog DEBUG "Handling CreateItem" false;
                  mkLog DEBUG "Handled CreateItem" false] tt))).
Proof.
  split.
  - split; [reflexivity|]. split; [reflexivity|].
    refine (proj1 (proj1 (C3_Result_passes_other_values_are_wrapped
              (serving not_found) create_item not_found _ quiet _ _) _) _ _);
      reflexivity.
  - split; [reflexivity|]. split; [reflexivity|].
    refine (proj2 (proj1 (C3_Result_passes_other_values_are_wrapped
              (serving name_length) create_item name_length _ quiet _ _) _) _);
      reflexivity.
Defined.

Lemma C4_witness :
  _command_handlers (serving name_length) !! type delete_item = None /\
  send delete_item (serving name_length, quiet)
    = (Returned (Result.fail "No handler registered for command DeleteItem"),
       (serving name_length, quiet)).
Proof.
  split; [reflexivity|].
  apply (proj1 (C4_no_handler_is_a_Fail (serving name_length) delete_item quiet)).
  reflexivity.
Defined.

(** ** Behaviours between the handler and the dispatch boundary *)

Section Behaviours.
Context {H : Type}.
Implicit Types (self : Mediator H) (handler : Handler H) (message : PyVal H) (w : World H).
Implicit Types (behavior : Behavior H) (behaviors : list (Behavior H)).

Lemma _logging_behavior_hands_on (o : Outcome (PyVal H)) : hands_on o _logging_behavior.
Proof.
  intros next_ Hnext m w. unfold _logging_behavior, bind, logger_debug, ret. simpl.
  specialize (Hnext m (mkWorld (logs w ++ [mkLog DEBUG ("Handling " +:+ ty_name (type m)) false])
                               (host w))).
  destruct (next_ m _) as [[result|exc] w']; simpl in *; by subst o.
Qed.

Lemma onion_hands_on behaviors handler (o : Outcome (PyVal H)) :
  Forall (hands_on o) behaviors ->
  (forall m w, (handler m w).1 = o) ->
  forall m w, (onion behaviors handler m w).1 = o.
Proof.
  intros Hall Hhandler. induction Hall as [|behavior inner Hb _ IH]; simpl.
  - done.
  - intros m w. by apply Hb.
Qed.

Lemma onion_app behaviors inner handler :
  onion (behaviors ++ inner) handler = onion behaviors (onion inner handler).
Proof.
  induction behaviors as [|outer behaviors IH]; simpl.
  - done.
  - by rewrite IH.
Qed.

Lemma onion_short_circuit behaviors behavior inner inner' handler handler' :
  ignores_continuation behavior ->
  onion (behaviors ++ behavior :: inner) handler
  = onion (behaviors ++ behavior :: inner') handler'.
Proof.
  intros Hignore. induction behaviors as [|outer behaviors IH]; simpl.
  - by rewrite (Hignore _ (fun m => onion inner' handler' m)).
  - by rewrite IH.
Qed.

(** C5, as the pipeline allows it: a handler that raises an exception (an
    instance of [Exception], which is what [_invoke] catches) makes [send]
    and [ask] return [Fail(str(exc))] and log the error, when every
    registered behaviour lets that exception of its continuation through, as
    the default [_logging_behavior] does. *)
Theorem C5_handler_exception_becomes_Fail self message handler exc w :
  exc_is_Exception exc = true ->
  (forall m w0, (handler m w0).1 = Raised exc) ->
  Forall (hands_on (Raised exc)) (_behaviors self) ->
  (_command_handlers self !! type message = Some handler ->
     exists w', send message (self, w)
                = (Returned (Result.fail (exc_str exc)), (self, error_logged exc w'))) /\
  (_query_handlers self !! type message = Some handler ->
     exists w', ask message (self, w)
                = (Returned (Result.fail (exc_str exc)), (self, error_logged exc w'))).
Proof.
  intros Hexc Hraises Hall.
  pose proof (onion_hands_on _ _ _ Hall Hraises message w) as Hrun.
  rewrite <- call_chain_onion in Hrun.
  split; intros Hreg.
  - rewrite send_paths, Hreg.
    destruct (call_chain self handler 0 message w) as [o w']. simpl in Hrun. subst o.
    rewrite Hexc. by exists w'.
  - rewrite ask_paths, Hreg.
    destruct (call_chain self handler 0 message w) as [o w']. simpl in Hrun. subst o.
    rewrite Hexc. by exists w'.
Qed.

(** C6, as the pipeline allows it: when the behaviour at position [i] does
    not call its continuation, the pipeline is the same function whatever
    the handler and the behaviours after [i] are, and [send] and [ask] end in
    the same result and the same world with any other handler and any other
    behaviours after [i]: dispatch runs none of them.  When that behaviour
    returns [v] and the behaviours before it return what their continuation
    returned, [send] and [ask] return [v] if it is a [Result] and
    [Result.ok(v)] if it is not. *)
Theorem C6_short_circuit self i behavior :
  _behaviors self !! i = Some behavior ->
  ignores_continuation behavior ->
  (forall handler handler' commands queries later,
     call_chain self handler 0
     = call_chain (mkMediator commands queries
                     (take i (_behaviors self) ++ behavior :: later)) handler' 0) /\
  (forall message handler handler' later w,
     let other :=
       mkMediator (<[type message := handler']> (_command_handlers self))
                  (<[type message := handler']> (_query_handlers self))
                  (take i (_behaviors self) ++ behavior :: later) in
     (_command_handlers self !! type message = Some handler ->
        (send message (self, w)).1 = (send message (other, w)).1 /\
        (send message (self, w)).2.2 = (send message (other, w)).2.2) /\
     (_query_handlers self !! type message = Some handler ->
        (ask message (self, w)).1 = (ask message (other, w)).1 /\
        (ask message (self, w)).2.2 = (ask message (other, w)).2.2)) /\
  (forall v,
     (forall next_ m w, (behavior next_ m w).1 = Returned v) ->
     Forall (hands_on (Returned v)) (take i (_behaviors self)) ->
     forall message handler w,
       (_command_handlers self !! type message = Some handler ->
          (send message (self, w)).1
          = Returned (match v with VResult r => r | _ => Result.ok v end)) /\
       (_query_handlers self !! type message = Some handler ->
          (ask message (self, w)).1
          = Returned (match v with VResult r => r | _ => Result.ok v end))).
Proof.
  intros Hi Hignore.
  pose proof (take_drop_middle _ _ _ Hi) as Hsplit.
  assert (Hsame : forall handler handler' commands queries later,
            call_chain self handler 0
            = call_chain (mkMediator commands queries
                            (take i (_behaviors self) ++ behavior :: later)) handler' 0).
  { intros. rewrite !call_chain_onion. simpl _behaviors.
    rewrite <- Hsplit at 1. by apply onion_short_circuit. }
  split; [exact Hsame|]. split.
  - intros message handler handler' later w other. split; intros Hreg.
    + rewrite !send_paths, Hreg. subst other. simpl. rewrite lookup_insert_eq.
      rewrite <- (Hsame handler handler').
      destruct (call_chain self handler 0 message w) as [[res|exc] w']; [done|].
      by destruct (exc_is_Exception exc).
    + rewrite !ask_paths, Hreg. subst other. simpl. rewrite lookup_insert_eq.
      rewrite <- (Hsame handler handler').
      destruct (call_chain self handler 0 message w) as [[res|exc] w']; [done|].
      by destruct (exc_is_Exception exc).
  - intros v Hv Hbefore message handler w.
    assert (Hrun : (call_chain self handler 0 message w).1 = Returned v).
    { rewrite call_chain_onion, <- Hsplit, onion_app.
      apply onion_hands_on; [done|].
      intros m w0. simpl. apply Hv. }
    split; intros Hreg.
    + rewrite send_paths, Hreg.
      destruct (call_chain self handler 0 message w) as [o w']. simpl in Hrun. by subst o.
    + rewrite ask_paths, Hreg.
      destruct (call_chain self handler 0 message w) as [o w']. simpl in Hrun. by subst o.
Qed.
End Behaviours.

Lemma C5_witness :
  exc_is_Exception (ValueError "boom") = true /\
  _command_handlers (serving (always_raises (ValueError "boom"))) !! type create_item
    = Some (always_raises (ValueError "boom")) /\
  exists w', send create_item (serving (always_raises (ValueError "boom")), quiet)
             = (Returned (Result.fail "boom"),
                (serving (always_raises (ValueError "boom")),
                 error_logged (ValueError "boom") w')).
Proof.
  split; [reflexivity|]. split; [reflexivity|].
  apply (C5_handler_exception_becomes_Fail
           (serving (always_raises (ValueError "boom"))) create_item
           (always_raises (ValueError "boom")) (ValueError "boom") quiet).
  - reflexivity.
  - reflexivity.
  - apply Forall_singleton, _logging_behavior_hands_on.
  - reflexivity.
Defined.

(** C5 as it is worded fails when a behaviour stands between the handler and
    the dispatch boundary: here one catches the handler's exception and
    returns a value of its own, and [send] returns [Ok] of that value. *)
Lemma C5_counterexample :
  (forall m w, always_raises (H:=unit) (ValueError "boom") m w = (Raised (ValueError "boom"), w)) /\
  _command_handlers (serving_through [catching (VStr "fallback")]
                       (always_raises (ValueError "boom"))) !! type create_item
    = Some (always_raises (ValueError "boom")) /\
  (send create_item
     (serving_through [catching (VStr "fallback")] (always_raises (ValueError "boom")),
      quiet)).1
    = Returned (Result.ok (VStr "fallback")) /\
  (send create_item
     (serving_through [catching (VStr "fallback")] (always_raises (ValueError "boom")),
      quiet)).1
    <> Returned (Result.fail "boom").
Proof.
  split; [reflexivity|]. split; [reflexivity|]. split; [reflexivity|].
  discriminate.
Qed.

Lemma C6_witness :
  _behaviors (serving_through [_logging_behavior; short_circuit (VInt 7)] name_length) !! 1
    = Some (short_circuit (VInt 7)) /\
  (send create_item
     (serving_through [_logging_behavior; short_circuit (VInt 7)] name_length, quiet)).1
    = Returned (Result.ok (VInt 7)).
Proof.
  split; [reflexivity|].
  refine (proj1 (proj2 (proj2 (C6_short_circuit
            (serving_through [_logging_behavior; short_circuit (VInt 7)] name_length)
            1 (short_circuit (VInt 7)) _ _)) (VInt 7) _ _ create_item name_length quiet) _).
  - reflexivity.
  - intros next_ next_'. reflexivity.
  - reflexivity.
  - apply Forall_singleton, _logging_behavior_hands_on.
  - reflexivity.
Defined.

(** C6 as it is worded fails at a position after the first: the behaviour
    before it is free to return something else than what its continuation
    returned. *)
Lemma C6_counterexample :
  _behaviors (serving_through [replacing (VStr "outer"); short_circuit (VInt 7)] name_length) !! 1
    = Some (short_circuit (VInt 7)) /\
  ignores_continuation (short_circuit (H:=unit) (VInt 7)) /\
  (forall next_ m w, short_circuit (H:=unit) (VInt 7) next_ m w = (Returned (VInt 7), w)) /\
  (send create_item
     (serving_through [replacing (VStr "outer"); short_circuit (VInt 7)] name_length,
      quiet)).1
    = Returned (Result.ok (VStr "outer")) /\
  (send create_item
     (serving_through [replacing (VStr "outer"); short_circuit (VInt 7)] name_length,
      quiet)).1
    <> Returned (Result.ok (VInt 7)).
Proof.
  split; [reflexivity|]. split; [by intros ? ?|]. split; [reflexivity|].
  split; [reflexivity|]. discriminate.
Qed.

(** ** Registration, the asynchronous methods, and the state of the mediator *)

Section Registry.
Context {H : Type}.
Implicit Types (self : Mediator H) (handler : Handler H) (message : PyVal H) (w : World H).

(** C7: registering [h1] and then [h2] for the class of a message raises
    nothing and leaves the mediator as registering [h2] alone does: the
    registry binds the class to [h2], and a dispatch of the message runs the
    pipeline around [h2]; [h1] is nowhere in the state.  So for commands, so
    for queries. *)
Theorem C7_last_registration_wins self message h1 h2 w w' :
  let t := type message in
  ((register_command t h1 ;; register_command t h2) (self, w)
     = register_command t h2 (self, w) /\
   (register_command t h1 ;; register_command t h2) (self, w)
     = (Returned tt,
        (mkMediator (<[t := h2]> (_command_handlers self)) (_query_handlers self)
                    (_behaviors self), w)) /\
   let registered := ((register_command t h1 ;; register_command t h2) (self, w)).2.1 in
   _command_handlers registered !! t = Some h2 /\
   send message (registered, w') =
     match onion (_behaviors self) h2 message w' with
     | (Returned res, w'') => (Returned (res_or_ok res), (registered, w''))
     | (Raised exc, w'') =>
         if exc_is_Exception exc
         then (Returned (Result.fail (exc_str exc)), (registered, error_logged exc w''))
         else (Raised exc, (registered, w''))
     end) /\
  ((register_query t h1 ;; register_query t h2) (self, w)
     = register_query t h2 (self, w) /\
   (register_query t h1 ;; register_query t h2) (self, w)
     = (Returned tt,
        (mkMediator (_command_handlers self) (<[t := h2]> (_query_handlers self))
                    (_behaviors self), w)) /\
   let registered := ((register_query t h1 ;; register_query t h2) (self, w)).2.1 in
   _query_handlers registered !! t = Some h2 /\
   ask message (registered, w') =
     match onion (_behaviors self) h2 message w' with
     | (Returned res, w'') => (Returned (res_or_ok res), (registered, w''))
     | (Raised exc, w'') =>
         if exc_is_Exception exc
         then (Returned (Result.fail (exc_str exc)), (registered, error_logged exc w''))
         else (Raised exc, (registered, w''))
     end).
Proof.
  intros t. split.
  - assert (Hrun : (register_command t h1 ;; register_command t h2) (self, w)
                   = (Returned tt,
                      (mkMediator (<[t := h2]> (_command_handlers self))
                                  (_query_handlers self) (_behaviors self), w))).
    { unfold register_command, bind, get_self, set_self. simpl.
      by rewrite insert_insert_eq. }
    split; [by rewrite Hrun|]. split; [done|].
    rewrite Hrun. simpl. split; [apply lookup_insert_eq|].
    rewrite send_paths. simpl. fold t. rewrite lookup_insert_eq.
    by rewrite call_chain_onion.
  - assert (Hrun : (register_query t h1 ;; register_query t h2) (self, w)
                   = (Returned tt,
                      (mkMediator (_command_handlers self)
                                  (<[t := h2]> (_query_handlers self))
                                  (_behaviors self), w))).
    { unfold register_query, bind, get_self, set_self. simpl.
      by rewrite insert_insert_eq. }
    split; [by rewrite Hrun|]. split; [done|].
    rewrite Hrun. simpl. split; [apply lookup_insert_eq|].
    rewrite ask_paths. simpl. fold t. rewrite lookup_insert_eq.
    by rewrite call_chain_onion.
Qed.

(** C8: when what the pipeline returns is not a coroutine (no stage
    produced a pending computation), [send_async] ends exactly as [send]
    does, in the same [Result] and the same world, and [ask_async] as
    [ask]. *)
Theorem C8_async_agrees_with_sync self message w :
  ((forall handler res w',
      _command_handlers self !! type message = Some handler ->
      call_chain self handler 0 message w = (Returned res, w') ->
      iscoroutine res = false) ->
   send_async message (self, w) = send message (self, w)) /\
  ((forall handler res w',
      _query_handlers self !! type message = Some handler ->
      call_chain self handler 0 message w = (Returned res, w') ->
      iscoroutine res = false) ->
   ask_async message (self, w) = ask message (self, w)).
Proof.
  split; intros Hsync.
  - rewrite send_async_eq, send_eq.
    destruct (_command_handlers self !! type message) as [handler|] eqn:Hreg; [|done].
    rewrite _invoke_eq.
    destruct (call_chain self handler 0 message w) as [[res|exc] w'] eqn:Hrun.
    + by rewrite (Hsync handler res w').
    + by destruct (exc_is_Exception exc).
  - rewrite ask_async_eq, ask_eq.
    destruct (_query_handlers self !! type message) as [handler|] eqn:Hreg; [|done].
    rewrite _invoke_eq.
    destruct (call_chain self handler 0 message w) as [[res|exc] w'] eqn:Hrun.
    + by rewrite (Hsync handler res w').
    + by destruct (exc_is_Exception exc).
Qed.

Lemma _invoke_self message handler self w :
  (_invoke message handler (self, w)).2.1 = self.
Proof. rewrite _invoke_eq. by repeat case_match. Qed.

Lemma call_host_self {A} (c : Host H A) self w :
  (call_host c (self, w)).2.1 = self.
Proof. unfold call_host. simpl. by destruct (c w). Qed.

Lemma awaiting_self (res : PyVal H) self w :
  ((if iscoroutine res then call_host (await res) else ret res) (self, w)).2.1 = self.
Proof. destruct (iscoroutine res); [apply call_host_self|done]. Qed.

Lemma awaiting_after_invoke_self message handler self w :
  (match _invoke message handler (self, w) with
   | (Returned res, s) =>
       match (if iscoroutine res then call_host (await res) else ret res) s with
       | (Returned res', s') => (Returned (res_or_ok res'), s')
       | (Raised exc, s') => (Raised exc, s')
       end
   | (Raised exc, s) => (Raised exc, s)
   end).2.1 = self.
Proof.
  pose proof (_invoke_self message handler self w) as Hself.
  destruct (_invoke message handler (self, w)) as [[res|exc] [self' w']];
    simpl in Hself; subst self'; [|done].
  pose proof (awaiting_self res self w') as Hself.
  by destruct ((if iscoroutine res then call_host (await res) else ret res) (self, w'))
    as [[res'|exc] [self' w'']]; simpl in Hself; subst self'.
Qed.

(** C10: the four dispatch methods leave the mediator object as it was, on
    every path (handlers and behaviours act on the world, the mediator is not
    theirs to change); [register_command] rebinds the class it is given in the
    command registry and nothing else, [register_query] the same in the
    query registry, and [add_behavior] puts the behaviour at the end of
    the list; none of the three touches the world. *)
Theorem C10_dispatch_reads_registration_writes_its_own self w :
  (forall message,
     (send message (self, w)).2.1 = self /\
     (ask message (self, w)).2.1 = self /\
     (send_async message (self, w)).2.1 = self /\
     (ask_async message (self, w)).2.1 = self /\
     (forall handler, (_invoke message handler (self, w)).2.1 = self)) /\
  (forall t handler,
     let after := register_command t handler (self, w) in
     after.1 = Returned tt /\ after.2.2 = w /\
     (forall t', _command_handlers after.2.1 !! t'
                 = if decide (t = t') then Some handler else _command_handlers self !! t') /\
     _query_handlers after.2.1 = _query_handlers self /\
     _behaviors after.2.1 = _behaviors self) /\
  (forall t handler,
     let after := register_query t handler (self, w) in
     after.1 = Returned tt /\ after.2.2 = w /\
     (forall t', _query_handlers after.2.1 !! t'
                 = if decide (t = t') then Some handler else _query_handlers self !! t') /\
     _command_handlers after.2.1 = _command_handlers self /\
     _behaviors after.2.1 = _behaviors self) /\
  (forall behavior,
     let after := add_behavior behavior (self, w) in
     after.1 = Returned tt /\ after.2.2 = w /\
     _behaviors after.2.1 = _behaviors self ++ [behavior] /\
     _command_handlers after.2.1 = _command_handlers self /\
     _query_handlers after.2.1 = _query_handlers self).
Proof.
  split_and!.
  - intros message. split_and!.
    + rewrite send_paths. repeat case_match; done.
    + rewrite ask_paths. repeat case_match; done.
    + rewrite send_async_eq.
      destruct (_command_handlers self !! type message) as [handler|]; [|done].
      apply awaiting_after_invoke_self.
    + rewrite ask_async_eq.
      destruct (_query_handlers self !! type message) as [handler|]; [|done].
      apply awaiting_after_invoke_self.
    + intros handler. apply _invoke_self.
  - intros t handler after. subst after. simpl. split_and!; try done.
    intros t'. apply lookup_insert.
  - intros t handler after. subst after. simpl. split_and!; try done.
    intros t'. apply lookup_insert.
  - intros behavior after. subst after. simpl. done.
Qed.
End Registry.

Lemma C8_witness :
  (forall handler res w',
     _command_handlers (serving name_length) !! type create_item = Some handler ->
     call_chain (serving name_length) handler 0 create_item quiet = (Returned res, w') ->
     iscoroutine res = false) /\
  send_async create_item (serving name_length, quiet)
    = send create_item (serving name_length, quiet).
Proof.
  assert (Hsync : forall handler res w',
            _command_handlers (serving name_length) !! type create_item = Some handler ->
            call_chain (serving name_length) handler 0 create_item quiet = (Returned res, w') ->
            iscoroutine res = false).
  { intros handler res w' Hreg Hrun.
    change (Some name_length = Some handler) in Hreg. injection Hreg as <-.
    vm_compute in Hrun. injection Hrun as <- _. reflexivity. }
  split; [exact Hsync|].
  exact (proj1 (C8_async_agrees_with_sync (serving name_length) create_item quiet) Hsync).
Defined.

(** ** The two states of a [Result] *)

Section Results.
Context {H : Type}.
Implicit Types (self : Mediator H) (handler : Handler H) (message : PyVal H) (w : World H).
Implicit Types (r : Result H).

Lemma ok_populated_one_way (v : PyVal H) : populated_one_way (Result.ok v).
Proof. by split. Qed.

Lemma fail_populated_one_way (e : string) : populated_one_way (Result.fail (H:=H) e).
Proof. by split. Qed.

Lemma res_or_ok_cases (res : PyVal H) :
  populated_one_way (res_or_ok res) \/ res = VResult (res_or_ok res).
Proof. destruct res; simpl; (by right) || (left; apply ok_populated_one_way). Qed.

(** C9, as the code has it: [Result.ok] and [Result.fail] build a [Result]
    in one of the two states, and so is every [Result] that a dispatch
    method builds itself (the [Ok] around a plain value, the [Fail] for a
    missing handler or a caught exception); a [Result] that came out of the
    pipeline, or out of the coroutine the pipeline returned, is handed back
    as it is. *)
Theorem C9_built_Results_are_in_one_state :
  (forall v : PyVal H, populated_one_way (Result.ok v)) /\
  (forall e : string, populated_one_way (Result.fail (H:=H) e)) /\
  (forall self message w r s,
     send message (self, w) = (Returned r, s) ->
     populated_one_way r \/
     exists handler, _command_handlers self !! type message = Some handler /\
                     pipeline_returns self handler message w r) /\
  (forall self message w r s,
     ask message (self, w) = (Returned r, s) ->
     populated_one_way r \/
     exists handler, _query_handlers self !! type message = Some handler /\
                     pipeline_returns self handler message w r) /\
  (forall self message w r s,
     send_async message (self, w) = (Returned r, s) ->
     populated_one_way r \/
     exists handler, _command_handlers self !! type message = Some handler /\
                     (pipeline_returns self handler message w r \/
                      awaited_returns self handler message w r)) /\
  (forall self message w r s,
     ask_async message (self, w) = (Returned r, s) ->
     populated_one_way r \/
     exists handler, _query_handlers self !! type message = Some handler /\
                     (pipeline_returns self handler message w r \/
                      awaited_returns self handler message w r)).
Proof.
  split; [apply ok_populated_one_way|]. split; [apply fail_populated_one_way|].
  split_and!.
  - intros self message w r s. rewrite send_paths.
    destruct (_command_handlers self !! type message) as [handler|] eqn:Hreg.
    2:{ intros [= <- _]. left. apply fail_populated_one_way. }
    destruct (call_chain self handler 0 message w) as [[res|exc] w'] eqn:Hrun.
    + intros [= <- _]. destruct (res_or_ok_cases res) as [?|Hres]; [by left|].
      right. exists handler. split; [done|]. exists w'. by rewrite Hrun, <- Hres.
    + destruct (exc_is_Exception exc); [|done].
      intros [= <- _]. left. apply fail_populated_one_way.
  - intros self message w r s. rewrite ask_paths.
    destruct (_query_handlers self !! type message) as [handler|] eqn:Hreg.
    2:{ intros [= <- _]. left. apply fail_populated_one_way. }
    destruct (call_chain self handler 0 message w) as [[res|exc] w'] eqn:Hrun.
    + intros [= <- _]. destruct (res_or_ok_cases res) as [?|Hres]; [by left|].
      right. exists handler. split; [done|]. exists w'. by rewrite Hrun, <- Hres.
    + destruct (exc_is_Exception exc); [|done].
      intros [= <- _]. left. apply fail_populated_one_way.
  - intros self message w r s. rewrite send_async_eq.
    destruct (_command_handlers self !! type message) as [handler|] eqn:Hreg.
    2:{ intros [= <- _]. left. apply fail_populated_one_way. }
    rewrite _invoke_eq.
    destruct (call_chain self handler 0 message w) as [[res|exc] w'] eqn:Hrun.
    + destruct res; simpl;
        try (intros [= <- _]; left; apply ok_populated_one_way).
      * intros [= <- _]. right. exists handler. split; [done|]. left. by exists w'.
      * unfold call_host. simpl.
        destruct (body w') as [[res'|exc] w''] eqn:Hbody; [|done].
        intros [= <- _]. destruct (res_or_ok_cases res') as [?|Hres]; [by left|].
        right. exists handler. split; [done|]. right.
        exists body, w', w''. by rewrite Hbody, <- Hres.
    + destruct (exc_is_Exception exc); [|done]. simpl.
      intros [= <- _]. left. apply fail_populated_one_way.
  - intros self message w r s. rewrite ask_async_eq.
    destruct (_query_handlers self !! type message) as [handler|] eqn:Hreg.
    2:{ intros [= <- _]. left. apply fail_populated_one_way. }
    rewrite _invoke_eq.
    destruct (call_chain self handler 0 message w) as [[res|exc] w'] eqn:Hrun.
    + destruct res; simpl;
        try (intros [= <- _]; left; apply ok_populated_one_way).
      * intros [= <- _]. right. exists handler. split; [done|]. left. by exists w'.
      * unfold call_host. simpl.
        destruct (body w') as [[res'|exc] w''] eqn:Hbody; [|done].
        intros [= <- _]. destruct (res_or_ok_cases res') as [?|Hres]; [by left|].
        right. exists handler. split; [done|]. right.
        exists body, w', w''. by rewrite Hbody, <- Hres.
    + destruct (exc_is_Exception exc); [|done]. simpl.
      intros [= <- _]. left. apply fail_populated_one_way.
Qed.
End Results.

Lemma C9_witness :
  send create_item (serving name_length, quiet)
    = (Returned (Result.ok (VInt 5)),
       (serving name_length,
        mkWorld [mkLog DEBUG "Handling CreateItem" false;
                 mkLog DEBUG "Handled CreateItem" false] tt)) /\
  (populated_one_way (Result.ok (H:=unit) (VInt 5)) \/
   exists handler,
     _command_handlers (serving name_length) !! type create_item = Some handler /\
     pipeline_returns (serving name_length) handler create_item quiet (Result.ok (VInt 5))).
Proof.
  split; [reflexivity|].
  eapply (proj1 (proj2 (proj2 (C9_built_Results_are_in_one_state (H:=unit))))).
  reflexivity.
Defined.

(** C9 as it is worded fails: the constructor of the dataclass is public and
    takes the three fields as they come, and dispatch hands a [Result] of the
    handler back unchanged, here a [Fail] that carries a value. *)
Lemma C9_counterexample :
  ~ populated_one_way (mkResult (H:=unit) false (VInt 1) (Some "NOT_FOUND")) /\
  send create_item (serving half_filled, quiet)
    = (Returned (mkResult false (VInt 1) (Some "NOT_FOUND")),
       (serving half_filled,
        mkWorld [mkLog DEBUG "Handling CreateItem" false;
                 mkLog DEBUG "Handled CreateItem" false] tt)).
Proof.
  split; [|reflexivity].
  intros [Hfail _]. specialize (Hfail eq_refl). discriminate Hfail.
Qed.

(** ** Which exceptions get past the dispatch methods *)

Section Containment.
Context {H : Type}.
Implicit Types (self : Mediator H) (handler : Handler H) (message : PyVal H) (w : World H).

(** The synchronous methods let no instance of [Exception] out. *)
Lemma send_contains_Exception self message w exc s :
  send message (self, w) = (Raised exc, s) -> exc_is_Exception exc = false.
Proof.
  rewrite send_paths. repeat case_match; try done. by intros [= <- _].
Qed.

Lemma ask_contains_Exception self message w exc s :
  ask message (self, w) = (Raised exc, s) -> exc_is_Exception exc = false.
Proof.
  rewrite ask_paths. repeat case_match; try done. by intros [= <- _].
Qed.

(** The asynchronous methods await outside of [_invoke] and its [try]:
    whatever the awaited coroutine raises is what they raise. *)
Lemma send_async_awaited_failure self message handler body exc w w1 w2 :
  _command_handlers self !! type message = Some handler ->
  call_chain self handler 0 message w = (Returned (VCoroutine body), w1) ->
  body w1 = (Raised exc, w2) ->
  send_async message (self, w) = (Raised exc, (self, w2)).
Proof.
  intros Hreg Hrun Hbody. rewrite send_async_eq, Hreg, _invoke_eq, Hrun. simpl.
  unfold call_host. simpl. by rewrite Hbody.
Qed.

Lemma ask_async_awaited_failure self message handler body exc w w1 w2 :
  _query_handlers self !! type message = Some handler ->
  call_chain self handler 0 message w = (Returned (VCoroutine body), w1) ->
  body w1 = (Raised exc, w2) ->
  ask_async message (self, w) = (Raised exc, (self, w2)).
Proof.
  intros Hreg Hrun Hbody. rewrite ask_async_eq, Hreg, _invoke_eq, Hrun. simpl.
  unfold call_host. simpl. by rewrite Hbody.
Qed.
End Containment.

(** C1 does not hold of the asynchronous methods: with
    [async def handle(command): raise ValueError("boom")] registered,
    [send_async] and [ask_async] raise the [ValueError] at [res = await res]
    and return no [Result], where [send] with the synchronous
    [def handle(command): raise ValueError("boom")] returns [Fail("boom")]. *)
Theorem C1_awaited_failure_escapes :
  send_async create_item (serving (async_raises (ValueError "boom")), quiet)
    = (Raised (ValueError "boom"),
       (serving (async_raises (ValueError "boom")),
        mkWorld [mkLog DEBUG "Handling CreateItem" false;
                 mkLog DEBUG "Handled CreateItem" false] tt)) /\
  ask_async get_item (serving (async_raises (ValueError "boom")), quiet)
    = (Raised (ValueError "boom"),
       (serving (async_raises (ValueError "boom")),
        mkWorld [mkLog DEBUG "Handling GetItem" false;
                 mkLog DEBUG "Handled GetItem" false] tt)) /\
  send create_item (serving (always_raises (ValueError "boom")), quiet)
    = (Returned (Result.fail "boom"),
       (serving (always_raises (ValueError "boom")),
        mkWorld [mkLog DEBUG "Handling CreateItem" false;
                 mkLog ERROR "Mediator handler error: boom" true] tt)).
Proof. split_and!; reflexivity. Qed.

(** ** The scenario of the specification *)

Example scenario_CreateItem :
  (send create_item (serving name_length, quiet)).1 = Returned (Result.ok (VInt 5)).
Proof. reflexivity. Qed.

Example scenario_DeleteItem :
  (send delete_item (serving name_length, quiet)).1
  = Returned (Result.fail "No handler registered for command DeleteItem").
Proof. reflexivity. Qed.

Example mediator_is_built_by_add_behavior :
  (add_behavior _logging_behavior (Mediator_init, quiet)).2.1 = mediator.
Proof. reflexivity. Qed.

(** ** More of the mediator: logging, coroutines, what gets out *)

Section MoreDispatch.
Context {H : Type}.
Implicit Types (self : Mediator H) (handler : Handler H) (message : PyVal H) (w : World H).

(** The world after [logger.debug(text)]. *)
Lemma logger_debug_eq text w :
  logger_debug text w = (Returned tt, mkWorld (logs w ++ [mkLog DEBUG text false]) (host w)).
Proof. done. Qed.

(** X1: on a mediator whose pipeline is the default [_logging_behavior],
    [send] logs "Handling T", runs the handler, and logs "Handled T" after a
    handler that returned; after a handler that raised an exception the
    error record takes the place of "Handled T". *)
Theorem X1_default_logging_around_the_handler self message handler w :
  _behaviors self = [_logging_behavior] ->
  _command_handlers self !! type message = Some handler ->
  let handling :=
    mkWorld (logs w ++ [mkLog DEBUG ("Handling " +:+ ty_name (type message)) false])
            (host w) in
  (forall res w1,
     handler message handling = (Returned res, w1) ->
     send message (self, w) =
       (Returned (match res with VResult r => r | _ => Result.ok res end),
        (self,
         mkWorld (logs w1 ++ [mkLog DEBUG ("Handled " +:+ ty_name (type message)) false])
                 (host w1)))) /\
  (forall exc w1,
     handler message handling = (Raised exc, w1) ->
     exc_is_Exception exc = true ->
     send message (self, w) =
       (Returned (Result.fail (exc_str exc)),
        (self,
         mkWorld (logs w1 ++ [mkLog ERROR ("Mediator handler error: " +:+ exc_str exc) true])
                 (host w1)))).
Proof.
  intros Hbs Hreg handling.
  assert (Hrun : call_chain self handler 0 message w =
                 match handler message handling with
                 | (Returned res, w1) =>
                     (Returned res,
                      mkWorld (logs w1 ++
                               [mkLog DEBUG ("Handled " +:+ ty_name (type message)) false])
                              (host w1))
                 | (Raised exc, w1) => (Raised exc, w1)
                 end).
  { rewrite call_chain_onion, Hbs. simpl.
    unfold _logging_behavior, bind, ret. rewrite logger_debug_eq. fold handling.
    by destruct (handler message handling) as [[res|exc] w1]. }
  split.
  - intros res w1 Hh. rewrite send_paths, Hreg, Hrun, Hh. by destruct res.
  - intros exc w1 Hh Hexc. by rewrite send_paths, Hreg, Hrun, Hh, Hexc.
Qed.

(** X2: when the pipeline returns a coroutine object (an [async def]
    handler), [send] returns [Ok] of the coroutine and the body never runs;
    [send_async] runs the body on the world the pipeline left, returns its
    [Result] as it is or [Ok] of its other value, and raises what it
    raises. *)
Theorem X2_send_wraps_a_coroutine_send_async_runs_it self message handler body w w1 :
  _command_handlers self !! type message = Some handler ->
  call_chain self handler 0 message w = (Returned (VCoroutine body), w1) ->
  send message (self, w) = (Returned (Result.ok (VCoroutine body)), (self, w1)) /\
  send_async message (self, w) =
    match body w1 with
    | (Returned (VResult r), w2) => (Returned r, (self, w2))
    | (Returned v, w2) => (Returned (Result.ok v), (self, w2))
    | (Raised exc, w2) => (Raised exc, (self, w2))
    end.
Proof.
  intros Hreg Hrun. split.
  - by rewrite send_paths, Hreg, Hrun.
  - rewrite send_async_eq, Hreg, _invoke_eq, Hrun. simpl. unfold call_host. simpl.
    destruct (body w1) as [[v|exc] w2]; [|done]. by destruct v.
Qed.



(** X5: a behaviour's step after the continuation can undo a success: when
    it raises an exception, [send] returns the [Fail] of that exception, the
    value the inner pipeline returned is lost, and what the inner pipeline
    did to the world stays. *)
Theorem X5_failing_post_step_discards_the_result
    self message handler pre post inner res exc w w1 w2 w3 :
  _behaviors self = around pre post :: inner ->
  _command_handlers self !! type message = Some handler ->
  pre message w = (Returned tt, w1) ->
  onion inner handler message w1 = (Returned res, w2) ->
  post message w2 = (Raised exc, w3) ->
  exc_is_Exception exc = true ->
  send message (self, w) =
    (Returned (Result.fail (exc_str exc)), (self, error_logged exc w3)).
Proof.
  intros Hbs Hreg Hpre Hinner Hpost Hexc.
  rewrite send_paths, Hreg, call_chain_onion, Hbs. simpl.
  unfold around, bind. rewrite Hpre, Hinner, Hpost. by rewrite Hexc.
Qed.

(** X6: the handler is looked up once, by the class of the message that was
    sent; a behaviour that forwards another message hands it to that same
    handler, whatever the class of the forwarded message. *)
Theorem X6_handler_is_chosen_by_the_message_sent self message handler f inner w :
  _behaviors self = forwarding f :: inner ->
  _command_handlers self !! type message = Some handler ->
  send message (self, w) =
    match onion inner handler (f message) w with
    | (Returned res, w') =>
        (Returned (match res with VResult r => r | _ => Result.ok res end), (self, w'))
    | (Raised exc, w') =>
        if exc_is_Exception exc
        then (Returned (Result.fail (exc_str exc)), (self, error_logged exc w'))
        else (Raised exc, (self, w'))
    end.
Proof.
  intros Hbs Hreg. rewrite send_paths, Hreg, call_chain_onion, Hbs. simpl.
  unfold forwarding.
  destruct (onion inner handler (f message) w) as [[res|exc] w']; [|done].
  by destruct res.
Qed.

(** X7: registrations for two classes can be made in either order, a
    command and a query registration too; and a handler registered as a
    command handler is not one [ask] finds. *)
Theorem X7_registrations_commute_registries_are_apart self t1 t2 h1 h2 w :
  (t1 <> t2 ->
     (register_command t1 h1 ;; register_command t2 h2) (self, w)
     = (register_command t2 h2 ;; register_command t1 h1) (self, w)) /\
  (t1 <> t2 ->
     (register_query t1 h1 ;; register_query t2 h2) (self, w)
     = (register_query t2 h2 ;; register_query t1 h1) (self, w)) /\
  (register_command t1 h1 ;; register_query t2 h2) (self, w)
  = (register_query t2 h2 ;; register_command t1 h1) (self, w) /\
  (forall message w',
     type message = t1 ->
     _query_handlers self !! t1 = None ->
     ask message ((register_command t1 h1 (self, w)).2.1, w')
     = (Returned (Result.fail ("No handler registered for query " +:+ ty_name t1)),
        ((register_command t1 h1 (self, w)).2.1, w'))).
Proof.
  split_and!.
  - intros Hne. unfold register_command, bind, get_self, set_self. simpl.
    by rewrite insert_insert_ne.
  - intros Hne. unfold register_query, bind, get_self, set_self. simpl.
    by rewrite insert_insert_ne.
  - done.
  - intros message w' Ht Hnone. rewrite ask_paths. simpl. by rewrite Ht, Hnone.
Qed.
End MoreDispatch.

Lemma X1_witness :
  _behaviors (serving name_length) = [_logging_behavior] /\
  _command_handlers (serving name_length) !! type create_item = Some name_length /\
  send create_item (serving name_length, quiet) =
    (Returned (Result.ok (VInt 5)),
     (serving name_length,
      mkWorld [mkLog DEBUG "Handling CreateItem" false;
               mkLog DEBUG "Handled CreateItem" false] tt)).
Proof.
  split; [reflexivity|]. split; [reflexivity|].
  exact (proj1 (X1_default_logging_around_the_handler
                  (serving name_length) create_item name_length quiet eq_refl eq_refl)
               (VInt 5) _ eq_refl).
Defined.

Lemma X2_witness :
  _command_handlers (serving (async_returns (VInt 1))) !! type create_item
    = Some (async_returns (VInt 1)) /\
  call_chain (serving (async_returns (VInt 1))) (async_returns (VInt 1)) 0 create_item quiet
    = (Returned (VCoroutine (ret (VInt 1))),
       mkWorld [mkLog DEBUG "Handling CreateItem" false;
                mkLog DEBUG "Handled CreateItem" false] tt) /\
  send create_item (serving (async_returns (VInt 1)), quiet)
    = (Returned (Result.ok (VCoroutine (ret (VInt 1)))),
       (serving (async_returns (VInt 1)),
        mkWorld [mkLog DEBUG "Handling CreateItem" false;
                 mkLog DEBUG "Handled CreateItem" false] tt)) /\
  send_async create_item (serving (async_returns (VInt 1)), quiet)
    = (Returned (Result.ok (VInt 1)),
       (serving (async_returns (VInt 1)),
        mkWorld [mkLog DEBUG "Handling CreateItem" false;
                 mkLog DEBUG "Handled CreateItem" false] tt)).
Proof.
  split; [reflexivity|]. split; [reflexivity|].
  exact (X2_send_wraps_a_coroutine_send_async_runs_it
           (serving (async_returns (VInt 1))) create_item (async_returns (VInt 1))
           (ret (VInt 1)) quiet _ eq_refl eq_refl).
Defined.



Lemma X5_witness :
  _behaviors (serving_through [around no_step (failing_step (ValueError "late"))] name_length)
    = around no_step (failing_step (ValueError "late")) :: [] /\
  onion [] name_length create_item quiet = (Returned (VInt 5), quiet) /\
  exc_is_Exception (ValueError "late") = true /\
  send create_item
       (serving_through [around no_step (failing_step (ValueError "late"))] name_length, quiet)
    = (Returned (Result.fail "late"),
       (serving_through [around no_step (failing_step (ValueError "late"))] name_length,
        error_logged (ValueError "late") quiet)).
Proof.
  split; [reflexivity|]. split; [reflexivity|]. split; [reflexivity|].
  exact (X5_failing_post_step_discards_the_result
           (serving_through [around no_step (failing_step (ValueError "late"))] name_length)
           create_item name_length no_step (failing_step (ValueError "late")) []
           (VInt 5) (ValueError "late") quiet quiet quiet quiet
           eq_refl eq_refl eq_refl eq_refl eq_refl eq_refl).
Defined.

Lemma X6_witness :
  _behaviors (serving_through [forwarding to_delete_item] name_length)
    = forwarding to_delete_item :: [] /\
  _command_handlers (serving_through [forwarding to_delete_item] name_length)
    !! type create_item = Some name_length /\
  type (to_delete_item create_item) = DeleteItem /\
  send create_item (serving_through [forwarding to_delete_item] name_length, quiet)
    = (Returned (Result.ok (VInt 3)),
       (serving_through [forwarding to_delete_item] name_length, quiet)).
Proof.
  split; [reflexivity|]. split; [reflexivity|]. split; [reflexivity|].
  exact (X6_handler_is_chosen_by_the_message_sent
           (serving_through [forwarding to_delete_item] name_length)
           create_item name_length to_delete_item [] quiet eq_refl eq_refl).
Defined.

Lemma X7_witness :
  CreateItem <> DeleteItem /\
  (register_command CreateItem name_length ;; register_command DeleteItem not_found)
    (mediator, quiet)
  = (register_command DeleteItem not_found ;; register_command CreateItem name_length)
      (mediator, quiet).
Proof.
  assert (Hne : CreateItem <> DeleteItem) by discriminate.
  split; [exact Hne|].
  exact (proj1 (X7_registrations_commute_registries_are_apart
                  mediator CreateItem DeleteItem name_length not_found quiet) Hne).
Defined.

(** ** The adapter from [Result] to HTTP *)

Section Adapter.
Context {H : Type}.
Implicit Types (self : Mediator H) (handler : Handler H) (message : PyVal H) (w : World H).
Implicit Types (result : Result H).

Lemma ERROR_STATUS_MAP_lookup (code : string) :
  ERROR_STATUS_MAP !! code =
    if decide (code = "NOT_FOUND") then Some 404%Z
    else if decide (code = "VALIDATION_ERROR") then Some 422%Z
    else if decide (code = "UNAUTHORIZED") then Some 401%Z
    else if decide (code = "FORBIDDEN") then Some 403%Z
    else None.
Proof.
  unfold ERROR_STATUS_MAP. simpl.
  repeat (rewrite lookup_insert; case_decide; [subst; by repeat case_decide|]).
  rewrite lookup_empty. by repeat (case_decide; [congruence|]).
Qed.

Lemma str_or_nonempty (s : option string) (d : string) : d <> "" -> str_or s d <> "".
Proof. by destruct s as [[|c s]|]. Qed.

(** X8: [unwrap_or_raise] returns exactly when [success] is set, and then
    the [value] field whatever [error] holds; otherwise it raises an
    [HTTPException] whose detail is not empty and whose status is 404, 422,
    401, 403 or the default, so a client error whenever the default is
    one. *)
Theorem X8_unwrap_or_raise_returns_iff_success result (default_status : Z) :
  (success result = true -> unwrap_or_raise result default_status = inl (value result)) /\
  (success result = false ->
     exists e, unwrap_or_raise result default_status = inr e /\
               detail e <> "" /\
               status_code e ∈ [404; 422; 401; 403; default_status]%Z /\
               ((400 <= default_status < 500)%Z -> (400 <= status_code e < 500)%Z)).
Proof.
  unfold unwrap_or_raise. split; intros ->; [done|].
  eexists. split; [done|]. simpl. split; [by apply str_or_nonempty|].
  rewrite ERROR_STATUS_MAP_lookup.
  repeat case_decide; simpl; (split; [set_solver|lia]).
Qed.

(** X9: for a [Fail] the status is read off the error string, matched
    exactly: 404 for "NOT_FOUND", 422 for "VALIDATION_ERROR", 401 for
    "UNAUTHORIZED", 403 for "FORBIDDEN" and the default for anything else;
    the detail is the error string, or "error" when that is empty; a missing
    error string gives the default and "error". *)
Theorem X9_status_is_read_off_the_error_string (v : PyVal H) (default_status : Z) :
  (forall code : string,
     unwrap_or_raise (mkResult false v (Some code)) default_status =
       inr (mkHTTPException
              (if decide (code = "NOT_FOUND") then 404
               else if decide (code = "VALIDATION_ERROR") then 422
               else if decide (code = "UNAUTHORIZED") then 401
               else if decide (code = "FORBIDDEN") then 403
               else default_status)%Z
              (if decide (code = "") then "error" else code))) /\
  unwrap_or_raise (mkResult false v None) default_status =
    inr (mkHTTPException default_status "error").
Proof.
  split; [|done]. intros code. unfold unwrap_or_raise. simpl. f_equal.
  destruct code as [|c code]; [done|]. simpl.
  rewrite ERROR_STATUS_MAP_lookup. f_equal. by repeat case_decide.
Qed.

(** X10: a message with no registered handler, sent and then unwrapped,
    raises the [HTTPException] of the default status (400 unless the caller
    says otherwise) whose detail is the "No handler registered" message: the
    message is none of the four known codes. *)
Theorem X10_no_handler_is_the_default_status self message w (default_status : Z) :
  (_command_handlers self !! type message = None ->
     exists r s, send message (self, w) = (Returned r, s) /\
       unwrap_or_raise r default_status =
         inr (mkHTTPException default_status
                ("No handler registered for command " +:+ ty_name (type message)))) /\
  (_query_handlers self !! type message = None ->
     exists r s, ask message (self, w) = (Returned r, s) /\
       unwrap_or_raise r default_status =
         inr (mkHTTPException default_status
                ("No handler registered for query " +:+ ty_name (type message)))).
Proof.
  split; intros Hnone.
  - rewrite send_paths, Hnone. eexists _, _. split; [done|].
    unfold unwrap_or_raise. simpl. by rewrite ERROR_STATUS_MAP_lookup.
  - rewrite ask_paths, Hnone. eexists _, _. split; [done|].
    unfold unwrap_or_raise. simpl. by rewrite ERROR_STATUS_MAP_lookup.
Qed.

(** X11: the text of an exception selects the HTTP status.  When the
    pipeline raises an exception, [send] followed by [unwrap_or_raise]
    raises the [HTTPException] whose status the table gives for [str(exc)]
    (404 for an exception whose text is "NOT_FOUND"), the default for any
    other text, and whose detail is that text, or "error" when it is
    empty. *)
Theorem X11_exception_text_selects_the_status
    self message handler exc w w' (default_status : Z) :
  _command_handlers self !! type message = Some handler ->
  call_chain self handler 0 message w = (Raised exc, w') ->
  exc_is_Exception exc = true ->
  exists r s, send message (self, w) = (Returned r, s) /\
    unwrap_or_raise r default_status =
      inr (mkHTTPException
             (default default_status (ERROR_STATUS_MAP !! exc_str exc))
             (if decide (exc_str exc = "") then "error" else exc_str exc)).
Proof.
  intros Hreg Hrun Hexc. rewrite send_paths, Hreg, Hrun, Hexc.
  eexists _, _. split; [done|]. unfold unwrap_or_raise. simpl.
  by destruct (exc_str exc) as [|c text].
Qed.
End Adapter.

Lemma X8_witness :
  success (Result.fail (H:=unit) "FORBIDDEN") = false /\
  exists e, unwrap_or_raise (Result.fail (H:=unit) "FORBIDDEN") 400 = inr e /\
            detail e <> "" /\
            status_code e ∈ [404; 422; 401; 403; 400]%Z /\
            ((400 <= 400 < 500)%Z -> (400 <= status_code e < 500)%Z).
Proof.
  split; [reflexivity|].
  exact (proj2 (X8_unwrap_or_raise_returns_iff_success
                  (Result.fail (H:=unit) "FORBIDDEN") 400) eq_refl).
Defined.

Lemma X10_witness :
  _command_handlers (serving name_length) !! type delete_item = None /\
  exists r s, send delete_item (serving name_length, quiet) = (Returned r, s) /\
    unwrap_or_raise r 400 =
      inr (mkHTTPException 400 "No handler registered for command DeleteItem").
Proof.
  split; [reflexivity|].
  exact (proj1 (X10_no_handler_is_the_default_status
                  (serving name_length) delete_item quiet 400) eq_refl).
Defined.

Lemma X11_witness :
  _command_handlers (serving (always_raises (ValueError "NOT_FOUND"))) !! type create_item
    = Some (always_raises (ValueError "NOT_FOUND")) /\
  exc_is_Exception (ValueError "NOT_FOUND") = true /\
  exists r s,
    send create_item (serving (always_raises (ValueError "NOT_FOUND")), quiet)
      = (Returned r, s) /\
    unwrap_or_raise r 400 = inr (mkHTTPException 404 "NOT_FOUND").
Proof.
  split; [reflexivity|]. split; [reflexivity|].
  exact (X11_exception_text_selects_the_status
           (serving (always_raises (ValueError "NOT_FOUND"))) create_item
           (always_raises (ValueError "NOT_FOUND")) (ValueError "NOT_FOUND")
           quiet _ 400 eq_refl eq_refl eq_refl).
Defined.

(** ** The in-memory user repository *)

Section Repository.
Import InMemoryUserRepository.
Implicit Types (self : InMemoryUserRepository) (u : User.User).

Lemma consistent_fresh self : consistent self -> _by_id self !! _next_id self = None.
Proof.
  intros (_ & Hids & _). destruct (_by_id self !! _next_id self) as [u|] eqn:Hu; [|done].
  apply Hids in Hu. lia.
Qed.

Lemma consistent_init : consistent __init__.
Proof. split; [done|]. split; intros ? ?; simpl; by rewrite lookup_empty. Qed.

Lemma names_unique_init : names_unique __init__.
Proof. intros i u. simpl. by rewrite lookup_empty. Qed.

Lemma consistent_create self username password_hash roles :
  consistent self -> consistent (create username password_hash roles self).2.
Proof.
  intros Hc. pose proof (consistent_fresh self Hc) as Hfresh.
  destruct Hc as (Hnext & Hids & Hnames).
  unfold consistent. simpl. split; [lia|]. split.
  - intros i u. rewrite lookup_insert. case_decide as Hi.
    + intros [= <-]. simpl. lia.
    + intros Hu. apply Hids in Hu. lia.
  - intros n i. rewrite lookup_insert. case_decide as Hn.
    + intros [= <-]. rewrite lookup_insert_eq. by eexists.
    + intros Hi. destruct (Hnames n i Hi) as (u & Hu & Hun).
      exists u. split; [|done]. rewrite lookup_insert_ne; [done|].
      intros <-. congruence.
Qed.

(** X12: a new repository is consistent and [create] keeps it so, whatever
    it is given: ids are handed out from 1 upwards and never twice, every
    user is stored under its own id, and every name in the index leads to a
    stored user of that name. *)
Theorem X12_create_keeps_the_repository_consistent :
  consistent __init__ /\
  (forall self username password_hash roles,
     consistent self ->
     consistent (create username password_hash roles self).2 /\
     _next_id (create username password_hash roles self).2 = (_next_id self + 1)%Z).
Proof.
  split; [apply consistent_init|].
  intros self username password_hash roles Hc. split; [|done].
  by apply consistent_create.
Qed.

(** X13: in a consistent repository [create] returns a user with the next id
    and the fields it was given; afterwards that user is what [get_by_id]
    finds under its id and what [get_by_username] finds under its name, every
    user stored before is still found under its id, and the other names lead
    where they led. *)
Theorem X13_create_then_get self username password_hash roles :
  consistent self ->
  let created := (create username password_hash roles self).1 in
  let after := (create username password_hash roles self).2 in
  let user := User.mk (_next_id self) username password_hash roles in
  created = Returned user /\
  get_by_id (User.id user) after = (Returned (Some user), after) /\
  get_by_username username after = (Returned (Some user), after) /\
  (forall i u, get_by_id i self = (Returned (Some u), self) ->
               get_by_id i after = (Returned (Some u), after)) /\
  (forall n, n <> username ->
             (get_by_username n after).1 = (get_by_username n self).1).
Proof.
  intros Hc created after user.
  pose proof (consistent_fresh self Hc) as Hfresh.
  destruct Hc as (Hnext & Hids & Hnames).
  split; [done|]. split.
  { unfold get_by_id. simpl. by rewrite lookup_insert_eq. }
  split.
  { unfold get_by_username. simpl. by rewrite !lookup_insert_eq. }
  split.
  - intros i u. unfold get_by_id. simpl. intros [= Hu].
    rewrite lookup_insert_ne; [by rewrite Hu|]. intros <-. congruence.
  - intros n Hn. unfold get_by_username. simpl.
    rewrite lookup_insert_ne by done.
    destruct (_by_username self !! n) as [i|] eqn:Hi; [|done]. simpl.
    rewrite lookup_insert_ne; [done|].
    intros <-. destruct (Hnames n _ Hi) as (u & Hu & _). congruence.
Qed.

(** X14: [create] does not refuse a name that is taken.  The name then leads
    to the new user, the user who had it is still found under its id, and
    two stored users share the name. *)
Theorem X14_create_with_a_taken_name self username password_hash roles old :
  consistent self ->
  get_by_username username self = (Returned (Some old), self) ->
  let after := (create username password_hash roles self).2 in
  let user := User.mk (_next_id self) username password_hash roles in
  get_by_username username after = (Returned (Some user), after) /\
  User.id user <> User.id old /\
  get_by_id (User.id old) after = (Returned (Some old), after) /\
  User.username old = username /\
  ~ names_unique after.
Proof.
  intros Hc Hold after user.
  pose proof (consistent_fresh self Hc) as Hfresh.
  destruct Hc as (Hnext & Hids & Hnames).
  unfold get_by_username in Hold.
  destruct (_by_username self !! username) as [i|] eqn:Hi; [|done].
  injection Hold as Hold.
  destruct (Hnames _ _ Hi) as (u & Hu & Hun). assert (u = old) as -> by congruence.
  destruct (Hids _ _ Hu) as [Hid Hrange].
  assert (Hkept : _by_id after !! User.id old = Some old).
  { simpl. rewrite lookup_insert_ne; [by rewrite Hid|]. lia. }
  split_and!.
  - unfold get_by_username. simpl. by rewrite !lookup_insert_eq.
  - simpl. lia.
  - unfold get_by_id. by rewrite Hkept.
  - done.
  - intros Huniq. apply Huniq in Hkept. simpl in Hkept.
    rewrite Hun, lookup_insert_eq in Hkept. injection Hkept. lia.
Qed.
End Repository.

(** ** The authentication service *)

Section Authentication.
Import InMemoryUserRepository.
Variable hash : string -> string -> string.
Variable verify : string -> string -> Outcome bool.
Implicit Types (self : InMemoryUserRepository) (u : User.User).

(** X15: [register] refuses a name that is taken with
    [ValueError("User already exists")] and leaves the repository as it was;
    for a free name it creates the user with the next id, the hash of the
    password and the roles given, or ["user"] when no roles or an empty list
    of roles is given. *)
Theorem X15_register_refuses_a_taken_name self salt username password roles :
  (forall old,
     get_by_username username self = (Returned (Some old), self) ->
     AuthService.register hash salt username password roles self
     = (Raised (ValueError "User already exists"), self)) /\
  (get_by_username username self = (Returned None, self) ->
     AuthService.register hash salt username password roles self
     = create username (hash salt password)
              (match roles with
               | None | Some [] => ["user"]
               | Some given => given
               end) self).
Proof.
  split.
  - intros old Hold. unfold AuthService.register, bind. by rewrite Hold.
  - intros Hfree. unfold AuthService.register, bind. rewrite Hfree.
    by destruct roles as [[|r rs]|].
Qed.

(** X16: users that come in through [register] never share a name: from a
    consistent repository without a shared name, as a new one is, [register]
    leads to one again, whether it creates the user or refuses. *)
Theorem X16_register_keeps_names_unique :
  (consistent __init__ /\ names_unique __init__) /\
  (forall self salt username password roles,
     consistent self -> names_unique self ->
     consistent (AuthService.register hash salt username password roles self).2 /\
     names_unique (AuthService.register hash salt username password roles self).2).
Proof.
  split; [split; [apply consistent_init|apply names_unique_init]|].
  intros self salt username password roles Hc Huniq.
  unfold AuthService.register, bind, get_by_username.
  destruct (_by_username self !! username) as [i|] eqn:Hi.
  - destruct Hc as (Hnext & Hids & Hnames).
    destruct (Hnames _ _ Hi) as (u & Hu & _). by rewrite Hu.
  - split; [by apply consistent_create|].
    pose proof (consistent_fresh self Hc) as Hfresh.
    intros j u. simpl. rewrite lookup_insert. case_decide as Hj.
    + intros [= <-]. simpl. rewrite lookup_insert_eq. by subst j.
    + intros Hu. pose proof (Huniq _ _ Hu) as Hidx.
      rewrite lookup_insert_ne; [done|]. intros Heq. congruence.
Qed.

End Authentication.


Lemma X12_witness :
  InMemoryUserRepository.consistent InMemoryUserRepository.__init__ /\
  InMemoryUserRepository.consistent with_ann /\
  InMemoryUserRepository._next_id with_ann = 2%Z.
Proof.
  split; [exact (proj1 X12_create_keeps_the_repository_consistent)|].
  exact (proj2 X12_create_keeps_the_repository_consistent
           InMemoryUserRepository.__init__ "ann" "pw$s1" ["user"]
           (proj1 X12_create_keeps_the_repository_consistent)).
Defined.

Lemma X13_witness :
  InMemoryUserRepository.consistent InMemoryUserRepository.__init__ /\
  (InMemoryUserRepository.create "ann" "pw$s1" ["user"] InMemoryUserRepository.__init__).1
    = Returned ann /\
  InMemoryUserRepository.get_by_id 1 with_ann = (Returned (Some ann), with_ann) /\
  InMemoryUserRepository.get_by_username "ann" with_ann = (Returned (Some ann), with_ann).
Proof.
  split; [exact consistent_init|].
  pose proof (X13_create_then_get InMemoryUserRepository.__init__ "ann" "pw$s1" ["user"]
                consistent_init) as (Hcreated & Hid & Hname & _).
  split; [exact Hcreated|]. split; [exact Hid|exact Hname].
Defined.

Lemma X14_witness :
  InMemoryUserRepository.consistent with_ann /\
  InMemoryUserRepository.get_by_username "ann" with_ann = (Returned (Some ann), with_ann) /\
  ~ InMemoryUserRepository.names_unique
      (InMemoryUserRepository.create "ann" "other" [] with_ann).2.
Proof.
  assert (Hc : InMemoryUserRepository.consistent with_ann)
    by exact (consistent_create _ "ann" "pw$s1" ["user"] consistent_init).
  split; [exact Hc|]. split; [reflexivity|].
  exact (proj2 (proj2 (proj2 (proj2
           (X14_create_with_a_taken_name with_ann "ann" "other" [] ann Hc eq_refl))))).
Defined.

Lemma X15_witness :
  InMemoryUserRepository.get_by_username "ann" with_ann = (Returned (Some ann), with_ann) /\
  AuthService.register salted_hash "s2" "ann" "pw2" None with_ann
    = (Raised (ValueError "User already exists"), with_ann) /\
  InMemoryUserRepository.get_by_username "bob" with_ann = (Returned None, with_ann) /\
  AuthService.register salted_hash "s2" "bob" "pw2" None with_ann
    = InMemoryUserRepository.create "bob" "pw2$s2" ["user"] with_ann.
Proof.
  split; [reflexivity|]. split.
  - exact (proj1 (X15_register_refuses_a_taken_name salted_hash with_ann "s2" "ann" "pw2" None)
                 ann eq_refl).
  - split; [reflexivity|].
    exact (proj2 (X15_register_refuses_a_taken_name salted_hash with_ann "s2" "bob" "pw2" None)
                 eq_refl).
Defined.

Lemma X16_witness :
  InMemoryUserRepository.consistent InMemoryUserRepository.__init__ /\
  InMemoryUserRepository.names_unique InMemoryUserRepository.__init__ /\
  InMemoryUserRepository.consistent
    (AuthService.register salted_hash "s1" "ann" "pw" None InMemoryUserRepository.__init__).2 /\
  InMemoryUserRepository.names_unique
    (AuthService.register salted_hash "s1" "ann" "pw" None InMemoryUserRepository.__init__).2.
Proof.
  split; [exact consistent_init|]. split; [exact names_unique_init|].
  exact (proj2 (X16_register_keeps_names_unique salted_hash)
           InMemoryUserRepository.__init__ "s1" "ann" "pw" None
           consistent_init names_unique_init).
Defined.


(** ** Roles and the authentication routes *)

Section Roles.
Variable lower : string -> string.

(** X18: the dependency that [require_roles] builds lets a user through, and
    returns that same user, exactly when one of the user's roles equals one
    of the required roles once both are lowered; otherwise it raises the 403
    "Insufficient role".  With no required role at all it lets nobody
    through, and a user without roles never passes. *)
Theorem X18_require_roles_compares_lowered_roles (roles : list string) (user : User.User) :
  (require_roles lower roles user = inl user <->
     exists r r', r ∈ roles /\ r' ∈ User.roles user /\ lower r = lower r') /\
  (require_roles lower roles user <> inl user ->
     require_roles lower roles user = inr (mkHTTPException 403 "Insufficient role")) /\
  require_roles lower [] user = inr (mkHTTPException 403 "Insufficient role") /\
  (User.roles user = [] ->
     require_roles lower roles user = inr (mkHTTPException 403 "Insufficient role")).
Proof.
  unfold require_roles. split_and!.
  - case_decide as Hempty; split; try done.
    + intros (r & r' & Hr & Hr' & Heq). exfalso.
      assert (lower r ∈ (list_to_set (lower <$> roles) : gset string)
                        ∩ list_to_set (lower <$> User.roles user)) as Hin.
      { apply elem_of_intersection. rewrite !elem_of_list_to_set, !list_elem_of_fmap.
        split; [by exists r|]. exists r'. by rewrite Heq. }
      rewrite Hempty in Hin. set_solver.
    + intros _. apply set_choose_L in Hempty as [x Hx].
      apply elem_of_intersection in Hx as [Hx1 Hx2].
      rewrite elem_of_list_to_set, list_elem_of_fmap in Hx1, Hx2.
      destruct Hx1 as (r & -> & Hr). destruct Hx2 as (r' & Heq & Hr').
      by exists r, r'.
  - by case_decide.
  - rewrite decide_True; [done|]. simpl. apply intersection_empty_l_L.
  - intros ->. rewrite decide_True; [done|]. simpl. apply intersection_empty_r_L.
Qed.
End Roles.

Section Routes.
Import InMemoryUserRepository.
Variable hash : string -> string -> string.
Variable verify : string -> string -> Outcome bool.
Variable create_access_token : User.User -> string.
Implicit Types (self : InMemoryUserRepository).

(** X19: [POST /auth/register] answers a name that is taken with the 400
    whose detail is "User already exists" and changes nothing; a free name
    it answers with the new id and the name, and the user is stored. *)
Theorem X19_register_route self salt username password :
  (forall old,
     get_by_username username self = (Returned (Some old), self) ->
     auth.register hash salt username password self
     = (Returned (inr (mkHTTPException 400 "User already exists")), self)) /\
  (get_by_username username self = (Returned None, self) ->
     exists after,
       auth.register hash salt username password self
       = (Returned (inl (_next_id self, username)), after) /\
       get_by_username username after
       = (Returned (Some (User.mk (_next_id self) username (hash salt password) ["user"])),
          after)).
Proof.
  split.
  - intros old Hold. unfold auth.register, AuthService.register, bind. by rewrite Hold.
  - intros Hfree. unfold auth.register, AuthService.register, bind. rewrite Hfree. simpl.
    eexists. split; [done|]. unfold get_by_username. simpl. by rewrite !lookup_insert_eq.
Qed.

(** X20: [POST /auth/login] answers 401 "invalid credentials" for a name
    that is not registered and for a password that [verify] rejects, and
    changes nothing; for a stored user whose password [verify] accepts it
    answers with the access token made for that user. *)
Theorem X20_login_route self username password :
  (get_by_username username self = (Returned None, self) ->
     auth.login verify create_access_token username password self
     = (Returned (inr (mkHTTPException 401 "invalid credentials")), self)) /\
  (forall user,
     get_by_username username self = (Returned (Some user), self) ->
     verify password (User.password_hash user) = Returned false ->
     auth.login verify create_access_token username password self
     = (Returned (inr (mkHTTPException 401 "invalid credentials")), self)) /\
  (forall user,
     get_by_username username self = (Returned (Some user), self) ->
     verify password (User.password_hash user) = Returned true ->
     auth.login verify create_access_token username password self
     = (Returned (inl (create_access_token user)), self)).
Proof.
  split_and!.
  - intros Hnone. unfold auth.login, AuthService.authenticate, bind. by rewrite Hnone.
  - intros user Hsome Hverify.
    unfold auth.login, AuthService.authenticate, bind. by rewrite Hsome, Hverify.
  - intros user Hsome Hverify.
    unfold auth.login, AuthService.authenticate, bind. rewrite Hsome, Hverify. simpl.
    by rewrite Hsome.
Qed.
End Routes.

Lemma X18_witness :
  lower_A_Z "Admin" = lower_A_Z "admin" /\
  require_roles lower_A_Z ["Admin"] (User.mk 1 "ann" "pw$s1" ["user"; "admin"])
    = inl (User.mk 1 "ann" "pw$s1" ["user"; "admin"]) /\
  (User.roles (User.mk 2 "bob" "pw$s2" []) = [] ->
   require_roles lower_A_Z ["Admin"] (User.mk 2 "bob" "pw$s2" [])
     = inr (mkHTTPException 403 "Insufficient role")).
Proof.
  split; [reflexivity|]. split.
  - apply (proj1 (X18_require_roles_compares_lowered_roles lower_A_Z ["Admin"]
                    (User.mk 1 "ann" "pw$s1" ["user"; "admin"]))).
    exists "Admin", "admin". split; [apply list_elem_of_here|].
    split; [apply list_elem_of_further, list_elem_of_here|reflexivity].
  - exact (proj2 (proj2 (proj2 (X18_require_roles_compares_lowered_roles lower_A_Z ["Admin"]
                                  (User.mk 2 "bob" "pw$s2" []))))).
Defined.

Lemma X19_witness :
  InMemoryUserRepository.get_by_username "ann" with_ann = (Returned (Some ann), with_ann) /\
  auth.register salted_hash "s2" "ann" "pw2" with_ann
    = (Returned (inr (mkHTTPException 400 "User already exists")), with_ann) /\
  InMemoryUserRepository.get_by_username "bob" with_ann = (Returned None, with_ann) /\
  exists after,
    auth.register salted_hash "s2" "bob" "pw2" with_ann
      = (Returned (inl (2%Z, "bob")), after) /\
    InMemoryUserRepository.get_by_username "bob" after
      = (Returned (Some (User.mk 2 "bob" "pw2$s2" ["user"])), after).
Proof.
  split; [reflexivity|]. split.
  - exact (proj1 (X19_register_route salted_hash with_ann "s2" "ann" "pw2") ann eq_refl).
  - split; [reflexivity|].
    exact (proj2 (X19_register_route salted_hash with_ann "s2" "bob" "pw2") eq_refl).
Defined.

Lemma X20_witness :
  InMemoryUserRepository.get_by_username "bob" with_ann = (Returned None, with_ann) /\
  auth.login salted_verify token_for "bob" "pw" with_ann
    = (Returned (inr (mkHTTPException 401 "invalid credentials")), with_ann) /\
  InMemoryUserRepository.get_by_username "ann" with_ann = (Returned (Some ann), with_ann) /\
  salted_verify "guess" (User.password_hash ann) = Returned false /\
  auth.login salted_verify token_for "ann" "guess" with_ann
    = (Returned (inr (mkHTTPException 401 "invalid credentials")), with_ann) /\
  salted_verify "pw" (User.password_hash ann) = Returned true /\
  auth.login salted_verify token_for "ann" "pw" with_ann
    = (Returned (inl "token-ann"), with_ann).
Proof.
  split; [reflexivity|]. split.
  { exact (proj1 (X20_login_route salted_verify token_for with_ann "bob" "pw") eq_refl). }
  split; [reflexivity|]. split; [reflexivity|]. split.
  { exact (proj1 (proj2 (X20_login_route salted_verify token_for with_ann "ann" "guess"))
                 ann eq_refl eq_refl). }
  split; [reflexivity|].
  exact (proj2 (proj2 (X20_login_route salted_verify token_for with_ann "ann" "pw"))
               ann eq_refl eq_refl).
Defined.

(** ** Loading plugins *)

Section Plugins.
Context {A : Type}.
Implicit Types (plugin : Plugin A) (modules : list (Plugin A)) (a : A).

Lemma load_plugin_eq plugin a :
  load_plugin plugin a =
    match plugin a with
    | (Returned (Some register), a') =>
        match register a' with
        | (Returned _, a'') => (Returned tt, a'')
        | (Raised exc, a'') =>
            if exc_is_Exception exc then (Returned tt, a'') else (Raised exc, a'')
        end
    | (Returned None, a') => (Returned tt, a')
    | (Raised exc, a') =>
        if exc_is_Exception exc then (Returned tt, a') else (Raised exc, a')
    end.
Proof.
  unfold load_plugin, bind, try_except_Exception, ret.
  destruct (plugin a) as [[[register|]|exc] a']; simpl; try done.
  - by destruct (register a') as [[[]|exc] a''].
  - by destruct (exc_is_Exception exc).
Qed.

Lemma load_plugins_app modules modules' a :
  load_plugins (modules ++ modules') a = (load_plugins modules ;; load_plugins modules') a.
Proof.
  revert a. induction modules as [|plugin modules IH]; intros a; simpl; [done|].
  unfold bind in *. destruct (load_plugin plugin a) as [[[]|exc] a']; [apply IH|done].
Qed.


(** X22: a plugin that fails does not stop the ones after it, and nothing
    of what it did is undone: after a plugin whose import raises an
    exception, or whose [register] does, [load_plugins] goes on with the
    other plugins from the state the failure left; a module without a
    callable [register] is passed over in the same way. *)
Theorem X22_a_failing_plugin_is_passed_over plugin modules a :
  (forall exc a',
     plugin a = (Raised exc, a') -> exc_is_Exception exc = true ->
     load_plugins (plugin :: modules) a = load_plugins modules a') /\
  (forall register a' exc a'',
     plugin a = (Returned (Some register), a') ->
     register a' = (Raised exc, a'') -> exc_is_Exception exc = true ->
     load_plugins (plugin :: modules) a = load_plugins modules a'') /\
  (forall a', plugin a = (Returned None, a') ->
     load_plugins (plugin :: modules) a = load_plugins modules a').
Proof.
  split_and!.
  - intros exc a' Hp Hexc. simpl. unfold bind. by rewrite load_plugin_eq, Hp, Hexc.
  - intros register a' exc a'' Hp Hr Hexc. simpl. unfold bind.
    by rewrite load_plugin_eq, Hp, Hr, Hexc.
  - intros a' Hp. simpl. unfold bind. by rewrite load_plugin_eq, Hp.
Qed.
End Plugins.


Lemma X22_witness :
  broken_plugin ["new"] = (Raised (ValueError "broken"), ["new"]) /\
  exc_is_Exception (ValueError "broken") = true /\
  load_plugins [broken_plugin; hello_plugin] ["new"] = (Returned tt, ["new"; "hello"]).
Proof.
  split; [reflexivity|]. split; [reflexivity|].
  exact (proj1 (X22_a_failing_plugin_is_passed_over broken_plugin [hello_plugin] ["new"])
               (ValueError "broken") ["new"] eq_refl eq_refl).
Defined.

(** ** The text of the options: splitting and stripping *)

Section Text.
Import Stdlib.Strings.Ascii.
Implicit Types (s t n raw : string) (c sep : ascii).

Lemma split_not_nil sep s : split sep s <> [].
Proof. destruct s as [|c s]; simpl; [done|]. case_decide; [done|]. by destruct (split sep s). Qed.

Lemma split_no_sep sep s : Forall (fun part => contains sep part = false) (split sep s).
Proof.
  induction s as [|c s IH]; simpl.
  - by apply Forall_singleton.
  - case_decide as Hc.
    + by apply Forall_cons.
    + destruct (split sep s) as [|part parts].
      * apply Forall_singleton. simpl. by rewrite bool_decide_eq_false_2.
      * apply Forall_cons in IH as [Hpart Hparts]. apply Forall_cons. split; [|done].
        simpl. by rewrite bool_decide_eq_false_2.
Qed.

Lemma contains_lstrip c s : contains c (lstrip s) = true -> contains c s = true.
Proof.
  induction s as [|c' s IH]; simpl; [done|].
  destruct (isspace c'); [|done]. intros Hc. rewrite (IH Hc). apply orb_true_r.
Qed.

Lemma contains_rstrip c s : contains c (rstrip s) = true -> contains c s = true.
Proof.
  induction s as [|c' s IH]; simpl; [done|].
  destruct (rstrip s) as [|k kept] eqn:Hkept.
  - destruct (isspace c'); simpl; [done|]. rewrite orb_false_r. intros ->. done.
  - simpl in *. intros [->| Hc]%orb_true_iff; [done|]. rewrite (IH Hc). apply orb_true_r.
Qed.

Lemma contains_strip c s : contains c (strip s) = true -> contains c s = true.
Proof. intros Hc. by apply contains_rstrip, contains_lstrip. Qed.

Lemma not_contains_strip c s : contains c s = false -> contains c (strip s) = false.
Proof.
  intros Hc. destruct (contains c (strip s)) eqn:Hs; [|done].
  apply contains_strip in Hs. congruence.
Qed.

Lemma lstrip_idem s : lstrip (lstrip s) = lstrip s.
Proof.
  induction s as [|c s IH]; simpl; [done|].
  destruct (isspace c) eqn:Hc; [done|]. simpl. by rewrite Hc.
Qed.

Lemma rstrip_idem s : rstrip (rstrip s) = rstrip s.
Proof.
  induction s as [|c s IH]; simpl; [done|].
  destruct (rstrip s) as [|k kept] eqn:Hkept.
  - destruct (isspace c) eqn:Hc; simpl; [done|]. by rewrite Hc.
  - simpl in *. by rewrite IH.
Qed.

Lemma rstrip_lstrip s : rstrip (lstrip s) = lstrip (rstrip s).
Proof.
  induction s as [|c s IH]; simpl; [done|].
  destruct (isspace c) eqn:Hc.
  - rewrite IH. destruct (rstrip s) as [|k kept]; simpl; [done|]. by rewrite Hc.
  - simpl. destruct (rstrip s) as [|k kept]; simpl; by rewrite Hc.
Qed.

Lemma strip_idem s : strip (strip s) = strip s.
Proof.
  unfold strip. by rewrite (rstrip_lstrip (rstrip s)), rstrip_idem, lstrip_idem.
Qed.

Lemma strip_lstrip s : strip s = s -> lstrip s = s.
Proof. intros <-. unfold strip. apply lstrip_idem. Qed.

Lemma strip_rstrip s : strip s = s -> rstrip s = s.
Proof. intros <-. unfold strip. by rewrite rstrip_lstrip, rstrip_idem. Qed.

Lemma rstrip_app s t : rstrip t = t -> t <> "" -> rstrip (s +:+ t) = s +:+ t.
Proof.
  intros Ht Hne. induction s as [|c s IH]; [done|].
  change (rstrip (String c (s +:+ t)) = String c (s +:+ t)). simpl.
  rewrite IH. destruct (s +:+ t) eqn:Hst; [|done].
  destruct s; [|done]. exfalso. apply Hne. exact Hst.
Qed.

Lemma lstrip_app s t : lstrip s = s -> s <> "" -> lstrip (s +:+ t) = s +:+ t.
Proof.
  intros Hs Hne. destruct s as [|c s]; [done|]. simpl in *.
  destruct (isspace c); [|done].
  exfalso. assert (String.length (lstrip s) <= String.length s) as Hlen.
  { clear. induction s as [|c s IH]; simpl; [done|]. destruct (isspace c); simpl; lia. }
  rewrite Hs in Hlen. simpl in Hlen. lia.
Qed.

Lemma split_once_spec sep s t :
  contains sep s = false -> split_once sep (s +:+ String sep t) = (s, t).
Proof.
  induction s as [|c s IH]; simpl.
  - by rewrite decide_True.
  - intros [Hc Hs]%orb_false_iff. apply bool_decide_eq_false in Hc.
    rewrite decide_False by done. by rewrite IH.
Qed.

Lemma split_once_parts sep s :
  contains sep (split_once sep s).1 = false /\
  (forall c, contains c (split_once sep s).1 = true -> contains c s = true) /\
  (forall c, contains c (split_once sep s).2 = true -> contains c s = true).
Proof.
  induction s as [|c' s (IH1 & IH2 & IH3)]; simpl; [done|].
  case_decide as Hc; simpl.
  - split; [done|]. split; [done|]. intros c ->. apply orb_true_r.
  - split; [by rewrite IH1, bool_decide_eq_false_2|]. split.
    + intros c [->|Hin]%orb_true_iff; [done|]. rewrite (IH2 _ Hin). apply orb_true_r.
    + intros c Hin. rewrite (IH3 _ Hin). apply orb_true_r.
Qed.

Lemma contains_app c s t : contains c (s +:+ t) = contains c s || contains c t.
Proof. induction s as [|c' s IH]; simpl; [done|]. by rewrite IH, orb_assoc. Qed.

Lemma split_one sep s : contains sep s = false -> split sep s = [s].
Proof.
  induction s as [|c s IH]; simpl; [done|].
  intros [Hc Hs]%orb_false_iff. apply bool_decide_eq_false in Hc.
  rewrite decide_False by done. by rewrite IH.
Qed.

Lemma split_app sep s t :
  contains sep s = false -> split sep (s +:+ String sep t) = s :: split sep t.
Proof.
  induction s as [|c s IH]; simpl.
  - by rewrite decide_True.
  - intros [Hc Hs]%orb_false_iff. apply bool_decide_eq_false in Hc.
    rewrite decide_False by done. by rewrite IH.
Qed.

Lemma split_join sep (parts : list string) :
  parts <> [] -> Forall (fun part => contains sep part = false) parts ->
  split sep (join (String sep "") parts) = parts.
Proof.
  induction parts as [|part parts IH]; [done|]. intros _ Hparts.
  apply Forall_cons in Hparts as [Hpart Hparts].
  destruct parts as [|part' parts]; simpl.
  - by apply split_one.
  - change (String sep "" +:+ ?x) with (String sep x).
    rewrite split_app by done. f_equal. by apply IH.
Qed.
End Text.

Section Options.
Import Stdlib.Strings.Ascii.
Implicit Types (s t n raw spec : string) (c sep : ascii).

Lemma split_parts_contains sep s c :
  Forall (fun part => contains c part = true -> contains c s = true) (split sep s).
Proof.
  induction s as [|c' s IH]; simpl.
  - by apply Forall_singleton.
  - case_decide as Hc.
    + apply Forall_cons. split; [done|].
      eapply Forall_impl; [exact IH|]. simpl. intros part Hpart Hin.
      rewrite (Hpart Hin). apply orb_true_r.
    + destruct (split sep s) as [|part parts].
      * apply Forall_singleton. simpl. rewrite orb_false_r. by intros ->.
      * apply Forall_cons in IH as [Hpart Hparts]. apply Forall_cons. split.
        -- simpl. intros [->|Hin]%orb_true_iff; [done|].
           rewrite (Hpart Hin). apply orb_true_r.
        -- eapply Forall_impl; [exact Hparts|]. simpl. intros p Hp Hin.
           rewrite (Hp Hin). apply orb_true_r.
Qed.

Lemma rstrip_blank s :
  (forall c, contains c s = true -> isspace c = true) -> rstrip s = "".
Proof.
  induction s as [|c s IH]; simpl; [done|]. intros Hblank.
  rewrite IH.
  - rewrite (Hblank c); [done|]. by rewrite bool_decide_eq_true_2.
  - intros c' Hc'. apply Hblank. rewrite Hc'. apply orb_true_r.
Qed.

Lemma strip_blank s :
  (forall c, contains c s = true -> isspace c = true) -> strip s = "".
Proof. intros Hblank. unfold strip. by rewrite rstrip_blank. Qed.

Lemma _parse_fields_out_cons raw (raws : list string) :
  _parse_fields_out (raw :: raws) =
    if decide (strip raw = "") then _parse_fields_out raws
    else
      let split_raw :=
        if contains ":" (strip raw) then split_once ":" (strip raw) else (strip raw, "str") in
      (strip split_raw.1, match strip split_raw.2 with "" => "str" | t => t end)
      :: _parse_fields_out raws.
Proof.
  simpl. case_decide; [done|].
  by destruct (if contains ":" (strip raw) then _ else _).
Qed.

(** What [_parse_fields] promises of a field. *)
Lemma _parse_fields_out_shape (raws : list string) :
  Forall (fun raw => contains "," raw = false) raws ->
  Forall (fun field : string * string =>
            strip field.1 = field.1 /\ strip field.2 = field.2 /\ field.2 <> "" /\
            contains "," field.1 = false /\ contains "," field.2 = false /\
            contains ":" field.1 = false)
         (_parse_fields_out raws).
Proof.
  induction 1 as [|raw raws Hraw _ IH]; [done|]. rewrite _parse_fields_out_cons.
  case_decide as Hblank; [done|]. apply Forall_cons. split; [|done].
  apply not_contains_strip in Hraw.
  destruct (contains ":" (strip raw)) eqn:Hcolon.
  - destruct (split_once_parts ":" (strip raw)) as (Hn & Hsub1 & Hsub2).
    destruct (split_once ":" (strip raw)) as [n t]. simpl in *.
    assert (contains "," n = false) as Hn'.
    { destruct (contains "," n) eqn:E; [|done]. apply Hsub1 in E. congruence. }
    assert (contains "," t = false) as Ht'.
    { destruct (contains "," t) eqn:E; [|done]. apply Hsub2 in E. congruence. }
    split; [apply strip_idem|].
    destruct (strip t) as [|k kept] eqn:Ht.
    + split_and!; try done. by apply not_contains_strip. by apply not_contains_strip.
    + rewrite <- Ht. split_and!.
      * apply strip_idem.
      * by rewrite Ht.
      * by apply not_contains_strip.
      * by apply not_contains_strip.
      * by apply not_contains_strip.
  - simpl. split_and!; try done.
    + apply strip_idem.
    + by apply not_contains_strip.
    + by apply not_contains_strip.
Qed.

(** X23: [_parse_fields] never returns an empty list, and of every field it
    returns the name and the type carry no white space at either end and no
    comma, the name has no colon, and the type is not empty.  The name can
    be empty. *)
Theorem X23_parse_fields_shape spec :
  _parse_fields spec <> [] /\
  Forall (fun field : string * string =>
            strip field.1 = field.1 /\ strip field.2 = field.2 /\ field.2 <> "" /\
            contains "," field.1 = false /\ contains "," field.2 = false /\
            contains ":" field.1 = false)
         (_parse_fields spec) /\
  (exists spec', "" ∈ (_parse_fields spec').*1).
Proof.
  pose proof (_parse_fields_out_shape _ (split_no_sep "," spec)) as Hshape.
  unfold _parse_fields. split_and!.
  - by destruct (_parse_fields_out (split "," spec)).
  - destruct (_parse_fields_out (split "," spec)); [|done].
    apply Forall_singleton. by vm_compute.
  - exists ":int". vm_compute. by left.
Qed.

Lemma _parse_fields_out_pairs (fields : list (string * string)) :
  Forall (fun field : string * string =>
            strip field.1 = field.1 /\ contains ":" field.1 = false /\
            strip field.2 = field.2 /\ field.2 <> "") fields ->
  _parse_fields_out ((fun field => field.1 +:+ ":" +:+ field.2) <$> fields) = fields.
Proof.
  induction 1 as [|[n t] fields (Hn & Hcolon & Ht & Hne) _ IH]; [done|].
  rewrite fmap_cons, _parse_fields_out_cons. simpl in *.
  change (":" +:+ t) with (String ":" t).
  assert (strip (n +:+ String ":" t) = n +:+ String ":" t) as ->.
  { unfold strip. rewrite rstrip_app.
    - destruct n as [|c n]; [done|]. apply (lstrip_app (String c n)); [|done].
      by apply strip_lstrip.
    - change (rstrip (":" +:+ t) = ":" +:+ t). apply rstrip_app; [|done].
      by apply strip_rstrip.
    - done. }
  rewrite decide_False by by destruct n.
  rewrite contains_app. simpl. rewrite orb_true_r.
  rewrite split_once_spec by done. simpl. rewrite Hn, Ht, IH.
  by destruct t.
Qed.

(** X24: what is written comes back.  Fields that [_parse_fields] can
    return at all (name and type without white space at the ends and
    without comma, no colon in the name, a type that is not empty), written
    as [name:type] and joined by commas, are parsed into those same fields
    in that order. *)
Theorem X24_parse_fields_reads_back_what_was_written (fields : list (string * string)) :
  fields <> [] ->
  Forall (fun field : string * string =>
            strip field.1 = field.1 /\ strip field.2 = field.2 /\ field.2 <> "" /\
            contains "," field.1 = false /\ contains "," field.2 = false /\
            contains ":" field.1 = false) fields ->
  _parse_fields (join "," ((fun field => field.1 +:+ ":" +:+ field.2) <$> fields)) = fields.
Proof.
  intros Hne Hfields. unfold _parse_fields. rewrite split_join.
  - rewrite _parse_fields_out_pairs.
    + by destruct fields.
    + eapply Forall_impl; [exact Hfields|]. simpl.
      by intros field (? & ? & ? & ? & ? & ?).
  - by destruct fields.
  - apply Forall_fmap. eapply Forall_impl; [exact Hfields|]. simpl.
    intros [n t] (_ & _ & _ & Hn & Ht & _). simpl in *.
    rewrite contains_app. change (":" +:+ t) with (String ":" t). simpl.
    by rewrite Hn, Ht.
Qed.

Lemma _parse_fields_out_blank (raws : list string) :
  Forall (fun raw => strip raw = "") raws -> _parse_fields_out raws = [].
Proof.
  induction 1 as [|raw raws Hraw _ IH]; [done|].
  by rewrite _parse_fields_out_cons, Hraw.
Qed.

Lemma _parse_fields_out_names (names : list string) :
  Forall (fun name => strip name = name /\ name <> "" /\ contains ":" name = false) names ->
  _parse_fields_out names = (fun name => (name, "str")) <$> names.
Proof.
  induction 1 as [|name names (Hn & Hne & Hcolon) _ IH]; [done|].
  rewrite fmap_cons, _parse_fields_out_cons.
  rewrite Hn, decide_False, Hcolon by done. simpl. by rewrite Hn, IH.
Qed.

(** X25: the defaults of [_parse_fields].  A text of nothing but white
    space and commas, the empty text among them, gives the one field
    [("name", "str")]; and names written without a type, joined by commas,
    all get the type ["str"]. *)
Theorem X25_parse_fields_defaults :
  (forall spec,
     (forall c, contains c spec = true -> isspace c = true \/ c = ","%char) ->
     _parse_fields spec = [("name", "str")]) /\
  (forall names : list string,
     names <> [] ->
     Forall (fun name => strip name = name /\ name <> "" /\
                         contains "," name = false /\ contains ":" name = false) names ->
     _parse_fields (join "," names) = (fun name => (name, "str")) <$> names).
Proof.
  split.
  - intros spec Hblank. unfold _parse_fields. rewrite _parse_fields_out_blank; [done|].
    pose proof (split_no_sep "," spec) as Hsep.
    assert (Hall : forall c, Forall (fun part => contains c part = true ->
                                                 contains c spec = true) (split "," spec))
      by (intros c; apply split_parts_contains).
    induction (split "," spec) as [|part parts IH]; [done|].
    apply Forall_cons in Hsep as [Hpart Hparts]. apply Forall_cons. split.
    + apply strip_blank. intros c Hc.
      specialize (Hall c). apply Forall_cons in Hall as [Hin _].
      destruct (Hblank c (Hin Hc)) as [?| ->]; [done|]. congruence.
    + apply IH; [done|]. intros c. specialize (Hall c). by apply Forall_cons in Hall as [_ ?].
  - intros names Hne Hnames. unfold _parse_fields. rewrite split_join.
    + rewrite _parse_fields_out_names.
      * by destruct names.
      * eapply Forall_impl; [exact Hnames|]. simpl. by intros name (? & ? & ? & ?).
    + done.
    + eapply Forall_impl; [exact Hnames|]. simpl. by intros name (? & ? & ? & ?).
Qed.

(** X26: the modules of a new modular project always include ["auth"]: it
    is put first when the text does not name it, and the names that were
    written follow in the order they were written.  No module name is empty,
    and none carries white space at its ends or a comma. *)
Theorem X26_selected_modules_include_auth (modules : string) :
  "auth" ∈ selected_modules modules /\
  Forall (fun m => m <> "" /\ strip m = m /\ contains "," m = false)
         (selected_modules modules) /\
  (exists given,
     Forall2 (fun m raw => m = strip raw) given
             (filter (fun raw => strip raw <> "") (split "," modules)) /\
     (selected_modules modules = given \/
      selected_modules modules = "auth" :: given /\ "auth" ∉ given)).
Proof.
  unfold selected_modules.
  set (given := filter (fun m => m <> "") (strip <$> split "," modules)).
  assert (Hgiven : Forall (fun m => m <> "" /\ strip m = m /\ contains "," m = false) given).
  { subst given. apply Forall_forall. intros m [Hne Hm]%list_elem_of_filter.
    apply list_elem_of_fmap in Hm as (raw & -> & Hraw).
    split; [done|]. split; [apply strip_idem|].
    apply not_contains_strip.
    by apply (proj1 (Forall_forall _ _) (split_no_sep "," modules)). }
  split_and!.
  - case_decide; [done|]. by left.
  - case_decide; [done|]. apply Forall_cons. split; [|done]. by vm_compute.
  - exists given. split.
    + clear Hgiven. subst given. induction (split "," modules) as [|raw raws IH]; [constructor|].
      rewrite fmap_cons, !filter_cons. simpl.
      repeat case_decide; try done. by constructor.
    + case_decide; [by left|by right].
Qed.
End Options.

Lemma X24_witness :
  [("name", "str"); ("age", "int")] <> [] /\
  Forall (fun field : string * string =>
            strip field.1 = field.1 /\ strip field.2 = field.2 /\ field.2 <> "" /\
            contains "," field.1 = false /\ contains "," field.2 = false /\
            contains ":" field.1 = false) [("name", "str"); ("age", "int")] /\
  _parse_fields "name:str,age:int" = [("name", "str"); ("age", "int")].
Proof.
  assert (Hfields :
    Forall (fun field : string * string =>
              strip field.1 = field.1 /\ strip field.2 = field.2 /\ field.2 <> "" /\
              contains "," field.1 = false /\ contains "," field.2 = false /\
              contains ":" field.1 = false) [("name", "str"); ("age", "int")]).
  { repeat constructor; discriminate. }
  split; [discriminate|]. split; [exact Hfields|].
  apply (X24_parse_fields_reads_back_what_was_written [("name", "str"); ("age", "int")]).
  - discriminate.
  - exact Hfields.
Defined.

Lemma X25_witness :
  ["title"; "body"] <> [] /\
  Forall (fun name => strip name = name /\ name <> "" /\
                      contains "," name = false /\ contains ":" name = false)
         ["title"; "body"] /\
  _parse_fields "title,body" = [("title", "str"); ("body", "str")].
Proof.
  assert (Hnames :
    Forall (fun name => strip name = name /\ name <> "" /\
                        contains "," name = false /\ contains ":" name = false)
           ["title"; "body"]).
  { repeat constructor; discriminate. }
  split; [discriminate|]. split; [exact Hnames|].
  apply (proj2 X25_parse_fields_defaults ["title"; "body"]).
  - discriminate.
  - exact Hnames.
Defined.

(** ** What [Email] accepts *)

Section EmailAddresses.
Import Stdlib.Strings.Ascii.
Implicit Types (s value : string) (c : ascii).

Lemma one_or_more_spec (class : ascii -> bool) s (rest : string -> bool) :
  one_or_more class s rest = true <->
  exists run after,
    s = run +:+ after /\ run <> "" /\
    (forall c, contains c run = true -> class c = true) /\ rest after = true.
Proof.
  induction s as [|c s IH]; simpl.
  - split; [done|]. intros (run & after & Hs & Hne & _). by destruct run.
  - rewrite andb_true_iff, orb_true_iff, IH. split.
    + intros [Hc [Hrest|(run & after & -> & Hne & Hrun & Hrest)]].
      * exists (String c ""), s. split_and!; try done.
        intros c'. simpl. rewrite orb_false_r. by intros ->%bool_decide_eq_true.
      * exists (String c run), after. split_and!; try done.
        intros c'. simpl. intros [->%bool_decide_eq_true|Hin]%orb_true_iff; auto.
    + intros (run & after & Hs & Hne & Hrun & Hrest).
      destruct run as [|c' run]; [done|]. injection Hs as <- ->.
      split.
      * apply Hrun. simpl. by rewrite bool_decide_eq_true_2.
      * destruct run as [|c'' run]; [by left|]. right.
        exists (String c'' run), after. split_and!; try done.
        intros c0 Hc0. apply Hrun. simpl in *. rewrite Hc0. apply orb_true_r.
Qed.

Lemma at_end_spec s : at_end s = true <-> s = "" \/ s = String newline "".
Proof.
  destruct s as [|c [|c' s]]; simpl.
  - by split; [left|].
  - rewrite bool_decide_eq_true. split; [intros ->; by right|]. by intros [|[= ->]].
  - split; [done|]. by intros [|].
Qed.

Lemma EMAIL_RE_spec value :
  matches EMAIL_RE value at_end = true <->
  exists local domain tld tail,
    value = local +:+ "@" +:+ domain +:+ "." +:+ tld +:+ tail /\
    Email.run local /\ Email.run domain /\ Email.run tld /\
    (tail = "" \/ tail = String newline "").
Proof.
  unfold EMAIL_RE, Email.run. simpl. rewrite one_or_more_spec. split.
  - intros (local & after & -> & Hlocal & Hclass & Hrest).
    destruct after as [|c after]; [done|].
    apply andb_true_iff in Hrest as [->%bool_decide_eq_true Hrest].
    apply one_or_more_spec in Hrest as (domain & after' & -> & Hdomain & Hclass' & Hrest).
    destruct after' as [|c after']; [done|].
    apply andb_true_iff in Hrest as [->%bool_decide_eq_true Hrest].
    apply one_or_more_spec in Hrest as (tld & tail & -> & Htld & Hclass'' & Hrest).
    apply at_end_spec in Hrest.
    by exists local, domain, tld, tail.
  - intros (local & domain & tld & tail & -> & [Hlocal Hclass] & [Hdomain Hclass'] &
            [Htld Hclass''] & Htail).
    exists local, ("@" +:+ domain +:+ "." +:+ tld +:+ tail). split_and!; try done.
    simpl. apply one_or_more_spec.
    exists domain, ("." +:+ tld +:+ tail). split_and!; try done.
    simpl. apply one_or_more_spec.
    exists tld, tail. split_and!; try done. by apply at_end_spec.
Qed.

Lemma Email_returns value :
  Email.__new__ value = Returned value <->
  exists local domain tld tail,
    value = local +:+ "@" +:+ domain +:+ "." +:+ tld +:+ tail /\
    Email.run local /\ Email.run domain /\ Email.run tld /\
    (tail = "" \/ tail = String newline "").
Proof.
  unfold Email.__new__. rewrite <- EMAIL_RE_spec.
  by destruct (matches EMAIL_RE value at_end).
Qed.

(** X27: [Email(value)] returns the text as it is exactly when the text is
    a run, an at sign, a run, a dot and a run, where a run is one or more
    characters that are neither an at sign nor white space, and then nothing
    or one newline; any other text raises
    [ValueError("Invalid email format")]. *)
Theorem X27_what_Email_accepts value :
  (Email.__new__ value = Returned value <->
     exists local domain tld tail,
       value = local +:+ "@" +:+ domain +:+ "." +:+ tld +:+ tail /\
       Email.run local /\ Email.run domain /\ Email.run tld /\
       (tail = "" \/ tail = String newline "")) /\
  (Email.__new__ value <> Returned value ->
     Email.__new__ value = Raised (ValueError "Invalid email format")).
Proof.
  unfold Email.__new__. rewrite <- EMAIL_RE_spec.
  destruct (matches EMAIL_RE value at_end); simpl; split; try done.
Qed.

Lemma append_assoc (s1 s2 s3 : string) : (s1 +:+ s2) +:+ s3 = s1 +:+ s2 +:+ s3.
Proof.
  induction s1 as [|c s1 IH]; [done|].
  change (String c ((s1 +:+ s2) +:+ s3) = String c (s1 +:+ s2 +:+ s3)). by f_equal.
Qed.

Lemma run_no_at s : Email.run s -> contains "@" s = false.
Proof.
  intros [_ Hrun]. destruct (contains "@" s) eqn:Hat; [|done].
  by apply Hrun in Hat.
Qed.

Lemma run_no_space s c : Email.run s -> contains c s = true -> isspace c = false.
Proof.
  intros [_ Hrun] Hc. apply Hrun in Hc. unfold not_at_nor_space in Hc.
  apply negb_true_iff, orb_false_iff in Hc. tauto.
Qed.

(** X28: a text that [Email] accepts has exactly one at sign, and no white
    space but a newline; and a final newline does pass: an accepted text
    that does not end in a newline is accepted with a newline after it too,
    and the newline stays in the value. *)
Theorem X28_one_at_sign_and_a_newline_passes value :
  Email.__new__ value = Returned value ->
  (exists before after,
     value = before +:+ "@" +:+ after /\
     contains "@" before = false /\ contains "@" after = false) /\
  (forall c, contains c value = true -> isspace c = true -> c = newline) /\
  (contains newline value = false ->
     Email.__new__ (value +:+ String newline "") = Returned (value +:+ String newline "")).
Proof.
  intros (local & domain & tld & tail & -> & Hlocal & Hdomain & Htld & Htail)%Email_returns.
  assert (contains "@" tail = false) as Htail_at by by destruct Htail as [-> | ->].
  split_and!.
  - exists local, (domain +:+ "." +:+ tld +:+ tail). split; [done|].
    split; [by apply run_no_at|].
    rewrite !contains_app. rewrite (run_no_at domain), (run_no_at tld), Htail_at by done.
    done.
  - intros c. rewrite !contains_app. simpl. rewrite !orb_false_r.
    intros Hc Hspace. repeat apply orb_true_iff in Hc as [Hc|Hc].
    + by rewrite (run_no_space local c) in Hspace.
    + apply bool_decide_eq_true in Hc as <-. done.
    + by rewrite (run_no_space domain c) in Hspace.
    + apply bool_decide_eq_true in Hc as <-. done.
    + by rewrite (run_no_space tld c) in Hspace.
    + destruct Htail as [-> | ->]; [done|]. simpl in Hc. rewrite orb_false_r in Hc.
      by apply bool_decide_eq_true in Hc.
  - intros Hnl. apply Email_returns.
    exists local, domain, tld, (String newline ""). split_and!; try done; [|by right].
    destruct Htail as [-> | ->].
    + by rewrite !append_assoc.
    + exfalso. rewrite !contains_app in Hnl. simpl in Hnl.
      by rewrite !orb_true_r in Hnl.
Qed.
End EmailAddresses.

Lemma X27_witness :
  Email.__new__ "a.b@example.org" = Returned "a.b@example.org" /\
  (exists local domain tld tail,
     "a.b@example.org" = local +:+ "@" +:+ domain +:+ "." +:+ tld +:+ tail /\
     Email.run local /\ Email.run domain /\ Email.run tld /\
     (tail = "" \/ tail = String newline "")) /\
  Email.__new__ "a b@example.org" <> Returned "a b@example.org" /\
  Email.__new__ "a b@example.org" = Raised (ValueError "Invalid email format").
Proof.
  split; [reflexivity|]. split.
  - exact (proj1 (proj1 (X27_what_Email_accepts "a.b@example.org")) eq_refl).
  - assert (Hne : Email.__new__ "a b@example.org" <> Returned "a b@example.org")
      by discriminate.
    split; [exact Hne|].
    exact (proj2 (X27_what_Email_accepts "a b@example.org") Hne).
Defined.

Lemma X28_witness :
  Email.__new__ "a.b@example.org" = Returned "a.b@example.org" /\
  contains newline "a.b@example.org" = false /\
  Email.__new__ ("a.b@example.org" +:+ String newline "")
    = Returned ("a.b@example.org" +:+ String newline "").
Proof.
  split; [reflexivity|]. split; [reflexivity|].
  exact (proj2 (proj2 (X28_one_at_sign_and_a_newline_passes "a.b@example.org" eq_refl))
               eq_refl).
Defined.
